(** * RFV segmentation (app.py): a shallow embedding and its properties

    The program reads a purchase log into a pandas frame, reduces it to
    one row per customer (Recencia, Frequencia, Valor), takes the
    quartiles of the three columns, grades every customer against them
    and looks the three-letter score up in a table of marketing actions.

    Conventions of the embedding:
    - Python numbers are exact rationals ([Qc]); an [int] column is
      injected with [Qc_of_Z] where the program compares it to a float.
      Rounding and NaN are outside the model: a NaN cell (quantile of a
      column without rows) is an absent entry.
    - a [Timestamp] is the count of nanoseconds pandas stores. The max
      of a date column without rows is null ([None]): the float nan for
      the untyped column that [read_csv] builds from a file without
      rows.
    - the log is the frame [read_csv] or [read_excel] builds (lines
      87-97), as the list of its rows, and no cell of it is null; a
      dict, and a frame or series read by label, is a [gmap].
    - a raised exception is the [Raise] branch of [result]. *)

From Stdlib Require Import QArith Qcanon Qround Lqa.
From stdpp Require Import gmap strings list sorting.

Local Open Scope Z_scope.
#[local] Set Warnings "-clear-no-such-hyp".

(** ** Exceptions and the error monad *)

Inductive pykey : Type :=
  | KStr (s : string)
  | KFloat (q : Qc).

Inductive exn : Type :=
  | KeyError (k : pykey)
  | AttributeError (attr : string).

Inductive result (A : Type) : Type :=
  | Ok (a : A)
  | Raise (e : exn).
Arguments Ok {A} a.
Arguments Raise {A} e.

Global Instance result_ret : MRet result := λ A a, Ok a.
Global Instance result_bind : MBind result := λ A B f m,
  match m with
  | Ok a => f a
  | Raise e => Raise e
  end.

(** ** Numbers *)

Abbreviation float := Qc.

(** The float literals [0.25], [0.50] and [0.75]. *)
Definition q025 : float := Q2Qc (1 # 4).
Definition q050 : float := Q2Qc (1 # 2).
Definition q075 : float := Q2Qc (3 # 4).

(** ** Frames read by label *)

(** [quartis]: column name, then quantile level, to the boundary. *)
Abbreviation Series := (gmap Qc float).
Abbreviation DataFrame := (gmap string Series).

(** [q_dict[r]] *)
Definition frame_getitem (q_dict : DataFrame) (r : string) : result Series :=
  match q_dict !! r with
  | Some col => Ok col
  | None => Raise (KeyError (KStr r))
  end.

(** [col[q]] *)
Definition series_getitem (col : Series) (q : Qc) : result float :=
  match col !! q with
  | Some v => Ok v
  | None => Raise (KeyError (KFloat q))
  end.

(** [q_dict[r][q]] *)
Definition getitem2 (q_dict : DataFrame) (r : string) (q : Qc) : result float :=
  col ← frame_getitem q_dict r; series_getitem col q.

(** ** The two classifiers *)

Definition recencia_class (x : float) (r : string) (q_dict : DataFrame)
  : result string :=
  q25 ← getitem2 q_dict r q025;
  if bool_decide (x ≤ q25)%Qc then Ok "A"%string
  else
    q50 ← getitem2 q_dict r q050;
    if bool_decide (x ≤ q50)%Qc then Ok "B"%string
    else
      q75 ← getitem2 q_dict r q075;
      if bool_decide (x ≤ q75)%Qc then Ok "C"%string
      else Ok "D"%string.

Definition freq_val_class (x : float) (fv : string) (q_dict : DataFrame)
  : result string :=
  q25 ← getitem2 q_dict fv q025;
  if bool_decide (x ≤ q25)%Qc then Ok "D"%string
  else
    q50 ← getitem2 q_dict fv q050;
    if bool_decide (x ≤ q50)%Qc then Ok "C"%string
    else
      q75 ← getitem2 q_dict fv q075;
      if bool_decide (x ≤ q75)%Qc then Ok "B"%string
      else Ok "A"%string.

(** ** The purchase log *)

Abbreviation Timestamp := Z.

(** One row of [df_compras]. *)
Record Compra : Type := {
  ID_cliente : Z;
  CodigoCompra : Z;
  DiaCompra : Timestamp;
  ValorTotal : float
}.

(** Nanoseconds in a day, the unit of [Timedelta.days]. *)
Definition ns_per_day : Z := 86400000000000.

(** [td.days]: whole days, rounded down. *)
Definition Timedelta_days (td : Z) : Z := td / ns_per_day.

(** ** pandas reductions *)

(** [s.max()]; null for a column without rows. *)
Definition Series_max (s : list Timestamp) : option Timestamp :=
  match s with
  | [] => None
  | x :: xs => Some (foldl Z.max x xs)
  end.

(** [s.count()]: the cells of the column (none is null). *)
Definition Series_count {A} (s : list A) : Z := Z.of_nat (length s).

(** [s.sum()] *)
Definition Series_sum (s : list float) : float := foldl Qcplus (Q2Qc 0) s.

(** The customers of a log as [groupby] lists them: distinct, sorted. *)
Definition keys (df : list Compra) : list Z :=
  merge_sort Z.le (remove_dups (ID_cliente <$> df)).

(** The purchases of customer [k], in their order of appearance. *)
Definition group (k : Z) (df : list Compra) : list Compra :=
  filter (λ t, ID_cliente t = k) df.

(** [df.groupby('ID_cliente')] *)
Definition groupby (df : list Compra) : list (Z * list Compra) :=
  (λ k, (k, group k df)) <$> keys df.

(** A reduction over every group; a group whose reduction is null
    leaves no row. *)
Definition groupby_agg {A} (agg : list Compra → option A)
    (df : list Compra) : list (Z * A) :=
  omap (λ kg, (kg.1 ,.) <$> agg kg.2) (groupby df).

(** [left.merge(right, on='ID_cliente')]: the inner join, in the order
    of the left keys. *)
Definition DataFrame_merge {A B} (left : list (Z * A)) (right : list (Z * B))
  : list (Z * (A * B)) :=
  l ← left; r ← right;
  if decide (l.1 = r.1) then [(l.1, (l.2, r.2))] else [].

(** One row of [df_RFV], indexed by the customer. *)
Record RFV : Type := {
  index : Z;
  Recencia : Z;
  Frequencia : Z;
  Valor : float
}.

(** Line 104. *)
Definition dia_atual (df_compras : list Compra) : option Timestamp :=
  Series_max (DiaCompra <$> df_compras).

(** Lines 107-110: the latest purchase of every customer, turned into
    days before [dia_atual]. [dia_atual] is null only when the log has
    no row, and then there is no row to apply the lambda to. *)
Definition df_recencia (now : option Timestamp) (df_compras : list Compra)
  : list (Z * Z) :=
  match now with
  | Some d =>
      (λ kx, (kx.1, Timedelta_days (d - kx.2)))
        <$> groupby_agg (λ g, Series_max (DiaCompra <$> g)) df_compras
  | None => []
  end.

(** Line 115. *)
Definition df_frequencia (df_compras : list Compra) : list (Z * Z) :=
  groupby_agg (λ g, Some (Series_count (CodigoCompra <$> g))) df_compras.

(** Line 121. *)
Definition df_valor (df_compras : list Compra) : list (Z * float) :=
  groupby_agg (λ g, Some (Series_sum (ValorTotal <$> g))) df_compras.

(** Lines 127-132. *)
Definition df_RFV (df_compras : list Compra) : list RFV :=
  (λ row, {| index := row.1; Recencia := row.2.1.1;
             Frequencia := row.2.1.2; Valor := row.2.2 |})
    <$> DataFrame_merge
          (DataFrame_merge (df_recencia (dia_atual df_compras) df_compras)
                           (df_frequencia df_compras))
          (df_valor df_compras).

(** ** Quartiles *)

(** Linear interpolation in a ranked column at the fractional position
    [pos]: between the value at the floor of [pos] and the next one
    (the same one at the end of the column). *)
Definition lerp_at (ranked : list float) (pos : Qc) : option float :=
  let i := Qfloor pos in
  let frac := (pos - Qc_of_Z i)%Qc in
  lo ← ranked !! Z.to_nat i;
  let hi := default lo (ranked !! S (Z.to_nat i)) in
  Some (lo + (hi - lo) * frac)%Qc.

(** The quantile of one column at level [q], by linear interpolation
    between the two ranked values around position [q * (n - 1)];
    NaN ([None]) for a column without rows. *)
Definition quantile_linear (vals : list float) (q : Qc) : option float :=
  let ranked := merge_sort Qcle vals in
  lerp_at ranked (q * Qc_of_Z (Z.of_nat (length ranked) - 1))%Qc.

(** The quantiles of one column at the levels [qs], read by level. *)
Definition Series_quantile (vals : list float) (qs : list Qc) : Series :=
  list_to_map (omap (λ q, (q ,.) <$> quantile_linear vals q) qs).

(** [df_RFV.quantile(q=qs)] *)
Definition DataFrame_quantile (df : list RFV) (qs : list Qc) : DataFrame :=
  list_to_map
    [ ("Recencia"%string, Series_quantile (Qc_of_Z ∘ Recencia <$> df) qs);
      ("Frequencia"%string, Series_quantile (Qc_of_Z ∘ Frequencia <$> df) qs);
      ("Valor"%string, Series_quantile (Valor <$> df) qs) ].

(** ** Actions *)

Definition dict_acoes : gmap string string :=
  list_to_map
    [ ("AAA", "Enviar cupons de desconto, pedir indicação, enviar amostras grátis de novos produtos.");
      ("DDD", "Clientes inativos com baixo gasto — monitorar ou desconsiderar ações.");
      ("DAA", "Clientes que gastaram bastante mas estão sumindo — enviar cupom de reativação.");
      ("CAA", "Clientes que gastaram bastante mas estão sumindo — enviar cupom de reativação.") ]%string.

(** [score.map(dict_acoes)] on one cell: a score that is no key of the
    dict maps to NaN ([None]). *)
Definition map_acoes (score : string) : option string := dict_acoes !! score.

(** ** The whole run *)

(** One row of the final table. *)
Record RFV_row : Type := {
  metrics : RFV;
  R_quartil : string;
  F_quartil : string;
  V_quartil : string;
  RFV_Score : string;
  acoes_de_marketing_crm : option string
}.

Record Output : Type := {
  out_dia_atual : option Timestamp;
  out_quartis : DataFrame;
  out_df_RFV : list RFV_row
}.

Definition mk_row (m : RFV) (g : string * (string * string)) : RFV_row :=
  let score := (g.1 +:+ g.2.1 +:+ g.2.2)%string in
  {| metrics := m; R_quartil := g.1; F_quartil := g.2.1; V_quartil := g.2.2;
     RFV_Score := score; acoes_de_marketing_crm := map_acoes score |}.

(** Line 105, [dia_atual.date()]: the calendar day of a timestamp, as a
    count of days. The null max of a column without rows is a float,
    which has no attribute [date]. *)
Definition Timestamp_date (d : option Timestamp) : result Z :=
  match d with
  | Some t => Ok (t / ns_per_day)
  | None => Raise (AttributeError "date")
  end.

Definition main (df_compras : list Compra) : result Output :=
  _ ← Timestamp_date (dia_atual df_compras);
  let rfv := df_RFV df_compras in
  let quartis := DataFrame_quantile rfv [q025; q050; q075] in
  R ← mapM (λ m, recencia_class (Qc_of_Z (Recencia m)) "Recencia" quartis) rfv;
  F ← mapM (λ m, freq_val_class (Qc_of_Z (Frequencia m)) "Frequencia" quartis) rfv;
  V ← mapM (λ m, freq_val_class (Valor m) "Valor" quartis) rfv;
  Ok {| out_dia_atual := dia_atual df_compras;
        out_quartis := quartis;
        out_df_RFV := zip_with mk_row rfv (zip R (zip F V)) |}.

(** ** Vocabulary of the statements *)

(** The boundary a table holds for metric [m] at level [q], if any. *)
Definition boundary (q_dict : DataFrame) (m : string) (q : Qc) : option float :=
  q_dict !! m ≫= (.!! q).

(** [q_dict] holds the three quartile boundaries of metric [m]. *)
Definition boundaries (q_dict : DataFrame) (m : string) (q25 q50 q75 : float)
  : Prop :=
  boundary q_dict m q025 = Some q25 ∧
  boundary q_dict m q050 = Some q50 ∧
  boundary q_dict m q075 = Some q75.

Definition grades : list string := ["A"; "B"; "C"; "D"]%string.

(** The grade order D < C < B < A. *)
Definition grade_rank (g : string) : nat :=
  if decide (g = "A"%string) then 3%nat
  else if decide (g = "B"%string) then 2%nat
  else if decide (g = "C"%string) then 1%nat
  else 0%nat.

(** The recency policy in the words of the specification, its cases
    read in order. *)
Definition recency_policy (x q25 q50 q75 : float) : string :=
  if decide (x ≤ q25)%Qc then "A"
  else if decide (q25 < x ≤ q50)%Qc then "B"
  else if decide (q50 < x ≤ q75)%Qc then "C"
  else "D".

(** The frequency/value policy in the words of the specification, its
    cases read in order. *)
Definition frequency_value_policy (x q25 q50 q75 : float) : string :=
  if decide (x ≤ q25)%Qc then "D"
  else if decide (q25 < x ≤ q50)%Qc then "C"
  else if decide (q50 < x ≤ q75)%Qc then "B"
  else "A".

(** [d] is the latest of the dates [dates]. *)
Definition latest_of (dates : list Timestamp) (d : Timestamp) : Prop :=
  d ∈ dates ∧ ∀ x, x ∈ dates → x ≤ d.

(** The purchase dates of customer [c] in a log. *)
Fixpoint dates_of (c : Z) (log : list Compra) : list Timestamp :=
  match log with
  | [] => []
  | t :: log =>
      if decide (ID_cliente t = c) then DiaCompra t :: dates_of c log
      else dates_of c log
  end.

(** The number of purchases of customer [c] in a log. *)
Fixpoint purchases_of (c : Z) (log : list Compra) : Z :=
  match log with
  | [] => 0
  | t :: log =>
      (if decide (ID_cliente t = c) then 1 else 0) + purchases_of c log
  end.

(** The amount customer [c] spent in a log. *)
Fixpoint spent_by (c : Z) (log : list Compra) : float :=
  match log with
  | [] => Q2Qc 0
  | t :: log =>
      ((if decide (ID_cliente t = c) then ValorTotal t else Q2Qc 0)
       + spent_by c log)%Qc
  end.

(** The latest purchase of customer [k] (0 when there is none). *)
Definition last_purchase (k : Z) (df : list Compra) : Timestamp :=
  default 0 (Series_max (DiaCompra <$> group k df)).

(** The row of customer [k] when the latest date of the log is [d]. *)
Definition row_of (d : Timestamp) (df : list Compra) (k : Z) : RFV :=
  {| index := k;
     Recencia := Timedelta_days (d - last_purchase k df);
     Frequencia := Series_count (CodigoCompra <$> group k df);
     Valor := Series_sum (ValorTotal <$> group k df) |}.

(** A table with ordered boundaries, and one whose boundaries are out
    of order, for the examples below. *)
Definition ex_quartis : DataFrame :=
  list_to_map
    [ ("Recencia"%string,
       list_to_map [(q025, Q2Qc 10); (q050, Q2Qc 20); (q075, Q2Qc 30)]);
      ("Valor"%string,
       list_to_map [(q025, Q2Qc (5 # 2)); (q050, Q2Qc 4); (q075, Q2Qc 4)]) ].

Definition ex_unordered : DataFrame :=
  list_to_map
    [ ("Recencia"%string,
       list_to_map [(q025, Q2Qc 10); (q050, Q2Qc 5); (q075, Q2Qc 7)]) ].

(** A log of two customers: customer 7 buys on day 0 and day 9,
    customer 3 on day 5 and, last of all, on day 19. *)
Definition ex_log : list Compra :=
  [ {| ID_cliente := 7; CodigoCompra := 1; DiaCompra := 0;
       ValorTotal := Q2Qc 50 |};
    {| ID_cliente := 3; CodigoCompra := 2; DiaCompra := 5 * ns_per_day;
       ValorTotal := Q2Qc (3 # 2) |};
    {| ID_cliente := 7; CodigoCompra := 3; DiaCompra := 9 * ns_per_day;
       ValorTotal := Q2Qc 30 |};
    {| ID_cliente := 3; CodigoCompra := 4; DiaCompra := 19 * ns_per_day + 5;
       ValorTotal := Q2Qc 30 |} ].

(** The names of the three metric columns. *)
Definition metric_names : list string :=
  ["Recencia"; "Frequencia"; "Valor"]%string.

(** The scores that are keys of [dict_acoes]. *)
Definition known_scores : list string := ["AAA"; "DDD"; "DAA"; "CAA"]%string.

(** ** The tables the run displays *)

(** The order of [value_counts]: the larger count first. *)
Definition count_ge {A} (a b : A * nat) : Prop := (b.2 ≤ a.2)%nat.

Global Instance count_ge_dec {A} : RelDecision (@count_ge A) :=
  λ a b, decide (b.2 ≤ a.2)%nat.

(** The order of [sort_values('Valor', ascending=False)]. *)
Definition Valor_ge (a b : RFV_row) : Prop :=
  (Valor (metrics b) ≤ Valor (metrics a))%Qc.

Global Instance Valor_ge_dec : RelDecision Valor_ge :=
  λ a b, decide (Valor (metrics b) ≤ Valor (metrics a))%Qc.

(** [s.value_counts(dropna=False)]: every distinct cell with the number
    of its occurrences, the larger counts first. Cells with equal counts
    are kept in their order of first appearance; pandas leaves that
    order open and nothing below depends on it. On a column without
    null cells [dropna] makes no difference. *)
Definition value_counts {A} `{EqDecision A} (s : list A) : list (A * nat) :=
  merge_sort count_ge
    ((λ v, (v, length (filter (λ x, x = v) s))) <$> remove_dups s).

(** Line 148: [df_RFV['RFV_Score'].value_counts()]. *)
Definition score_counts (t : list RFV_row) : list (string * nat) :=
  value_counts (RFV_Score <$> t).

(** Line 152: the rows with score 'AAA', by falling [Valor], the first
    ten of them. *)
Definition top10_AAA (t : list RFV_row) : list RFV_row :=
  take 10
    (merge_sort Valor_ge (filter (λ r, RFV_Score r = "AAA"%string) t)).

(** Line 176: [df_RFV['acoes de marketing/crm'].value_counts(dropna=False)]. *)
Definition action_counts (t : list RFV_row) : list (option string * nat) :=
  value_counts (acoes_de_marketing_crm <$> t).

(** ** Further vocabulary *)

Global Instance result_fmap : FMap result := λ A B f m,
  match m with
  | Ok a => Ok (f a)
  | Raise e => Raise e
  end.

(** The grade at the same distance from the other end of the scale. *)
Definition mirror_grade (g : string) : string :=
  if decide (g = "A"%string) then "D"
  else if decide (g = "B"%string) then "C"
  else if decide (g = "C"%string) then "B"
  else if decide (g = "D"%string) then "A"
  else g.

(** The grade a classifier returned (the empty string if it raised). *)
Definition grade_of (c : result string) : string :=
  match c with
  | Ok g => g
  | Raise _ => ""
  end.

(** The row of the final table built from the aggregated row [m] with
    the quantile frame [quartis]. *)
Definition graded_row (quartis : DataFrame) (m : RFV) : RFV_row :=
  mk_row m
    (grade_of (recencia_class (Qc_of_Z (Recencia m)) "Recencia" quartis),
     (grade_of (freq_val_class (Qc_of_Z (Frequencia m)) "Frequencia" quartis),
      grade_of (freq_val_class (Valor m) "Valor" quartis))).

(** The sum of a column of integers, and of a column of floats. *)
Definition total_Z (s : list Z) : Z := foldr Z.add 0 s.
Definition total_Qc (s : list float) : float := foldr Qcplus (Q2Qc 0) s.

(** The run on the example log, and the row of customer 3 in it. *)
Definition ex_out : Output :=
  {| out_dia_atual := dia_atual ex_log;
     out_quartis := DataFrame_quantile (df_RFV ex_log) [q025; q050; q075];
     out_df_RFV :=
       graded_row (DataFrame_quantile (df_RFV ex_log) [q025; q050; q075])
         <$> df_RFV ex_log |}.

Definition ex_row : RFV_row :=
  {| metrics := {| index := 3; Recencia := 0; Frequencia := 2;
                   Valor := Q2Qc (63 # 2) |};
     R_quartil := "A"; F_quartil := "D"; V_quartil := "D";
     RFV_Score := "ADD"; acoes_de_marketing_crm := None |}.

(** A final table with two rows of score 'AAA' and one of score 'DDD',
    for the examples on the displayed tables. *)
Definition ex_table : list RFV_row :=
  [ mk_row {| index := 1; Recencia := 0; Frequencia := 5; Valor := Q2Qc 10 |}
      ("A", ("A", "A"))%string;
    mk_row {| index := 2; Recencia := 9; Frequencia := 1; Valor := Q2Qc 2 |}
      ("D", ("D", "D"))%string;
    mk_row {| index := 3; Recencia := 0; Frequencia := 6; Valor := Q2Qc 30 |}
      ("A", ("A", "A"))%string ].

(** A log of five customers in which customer 5 buys last, most often
    and for the largest amount; its run, and the row of customer 5. *)
Definition ex_log5 : list Compra :=
  [ {| ID_cliente := 1; CodigoCompra := 1; DiaCompra := 0;
       ValorTotal := Q2Qc 10 |};
    {| ID_cliente := 2; CodigoCompra := 2; DiaCompra := 1 * ns_per_day;
       ValorTotal := Q2Qc 20 |};
    {| ID_cliente := 3; CodigoCompra := 3; DiaCompra := 2 * ns_per_day;
       ValorTotal := Q2Qc 30 |};
    {| ID_cliente := 4; CodigoCompra := 4; DiaCompra := 3 * ns_per_day;
       ValorTotal := Q2Qc 40 |};
    {| ID_cliente := 5; CodigoCompra := 5; DiaCompra := 4 * ns_per_day;
       ValorTotal := Q2Qc 60 |};
    {| ID_cliente := 5; CodigoCompra := 6; DiaCompra := 9 * ns_per_day;
       ValorTotal := Q2Qc 40 |} ].

Definition ex_out5 : Output :=
  {| out_dia_atual := dia_atual ex_log5;
     out_quartis := DataFrame_quantile (df_RFV ex_log5) [q025; q050; q075];
     out_df_RFV :=
       graded_row (DataFrame_quantile (df_RFV ex_log5) [q025; q050; q075])
         <$> df_RFV ex_log5 |}.

Definition ex_row5 : RFV_row :=
  {| metrics := {| index := 5; Recencia := 0; Frequencia := 2;
                   Valor := Q2Qc 100 |};
     R_quartil := "A"; F_quartil := "A"; V_quartil := "A";
     RFV_Score := "AAA";
     acoes_de_marketing_crm :=
       Some "Enviar cupons de desconto, pedir indicação, enviar amostras grátis de novos produtos."%string |}.

(** The row of customer 7 in the run on the example log. *)
Definition ex_row7 : RFV_row :=
  {| metrics := {| index := 7; Recencia := 10; Frequencia := 2;
                   Valor := Q2Qc 80 |};
     R_quartil := "D"; F_quartil := "D"; V_quartil := "A";
     RFV_Score := "DDA"; acoes_de_marketing_crm := None |}.

(** The cells of an aggregated row that are computed on integers, and
    the grades of a row of the final table that depend on them. *)
Definition dated (m : RFV) : Z * Z * Z := (index m, Recencia m, Frequencia m).

Definition graded_RF (r : RFV_row) : Z * string * string :=
  (index (metrics r), R_quartil r, F_quartil r).

(** The R and F grades as the run computes them from the integer cells
    alone: the quartiles of the two columns, then the two classifiers. *)
Definition RF_grades (l : list (Z * Z * Z)) : list (Z * string * string) :=
  let qR : DataFrame :=
    {[ "Recencia"%string :=
         Series_quantile ((λ t, Qc_of_Z t.1.2) <$> l) [q025; q050; q075] ]} in
  let qF : DataFrame :=
    {[ "Frequencia"%string :=
         Series_quantile ((λ t, Qc_of_Z t.2) <$> l) [q025; q050; q075] ]} in
  (λ t, (t.1.1,
         grade_of (recencia_class (Qc_of_Z t.1.2) "Recencia" qR),
         grade_of (freq_val_class (Qc_of_Z t.2) "Frequencia" qF))) <$> l.

(** * Properties *)

(** ** The classifiers *)

Ltac qc_order := unfold Qcle, Qclt in *; lra.

Section classifiers.
Context (q_dict : DataFrame) (m : string) (q25 q50 q75 : float).
Hypothesis Hq : boundaries q_dict m q25 q50 q75.

Lemma getitem2_boundary q v :
  boundary q_dict m q = Some v → getitem2 q_dict m q = Ok v.
Proof using Type.
  unfold boundary, getitem2, frame_getitem, series_getitem.
  destruct (q_dict !! m) as [col|]; simpl; [|done].
  intros ->. done.
Qed.

(** The two cascades with their look-ups resolved. *)
Lemma recencia_class_cascade x :
  recencia_class x m q_dict =
    Ok (if bool_decide (x ≤ q25)%Qc then "A"
        else if bool_decide (x ≤ q50)%Qc then "B"
        else if bool_decide (x ≤ q75)%Qc then "C" else "D")%string.
Proof using Hq.
  destruct Hq as (H25 & H50 & H75). unfold recencia_class.
  rewrite (getitem2_boundary _ _ H25). simpl.
  destruct (bool_decide (x ≤ q25)%Qc); [done|].
  rewrite (getitem2_boundary _ _ H50). simpl.
  destruct (bool_decide (x ≤ q50)%Qc); [done|].
  rewrite (getitem2_boundary _ _ H75). simpl.
  by destruct (bool_decide (x ≤ q75)%Qc).
Qed.

Lemma freq_val_class_cascade x :
  freq_val_class x m q_dict =
    Ok (if bool_decide (x ≤ q25)%Qc then "D"
        else if bool_decide (x ≤ q50)%Qc then "C"
        else if bool_decide (x ≤ q75)%Qc then "B" else "A")%string.
Proof using Hq.
  destruct Hq as (H25 & H50 & H75). unfold freq_val_class.
  rewrite (getitem2_boundary _ _ H25). simpl.
  destruct (bool_decide (x ≤ q25)%Qc); [done|].
  rewrite (getitem2_boundary _ _ H50). simpl.
  destruct (bool_decide (x ≤ q50)%Qc); [done|].
  rewrite (getitem2_boundary _ _ H75). simpl.
  by destruct (bool_decide (x ≤ q75)%Qc).
Qed.
End classifiers.

Ltac cascade H :=
  first [rewrite (recencia_class_cascade _ _ _ _ _ H)
        |rewrite (freq_val_class_cascade _ _ _ _ _ H)].

Ltac split_le :=
  repeat case_bool_decide; repeat case_decide; try done; try qc_order.

(** C1. For every value [x] and every table holding boundaries [q25],
    [q50], [q75] for the metric, [recencia_class] returns the grade of
    the recency policy, its cases read in order: 'A' when x ≤ q25, 'B'
    when q25 < x ≤ q50, 'C' when q50 < x ≤ q75, 'D' otherwise. Each case
    also holds on its own; for 'C' this uses q25 ≤ q50, which makes the
    ranges disjoint. *)
Theorem recencia_class_policy (x : float) (r : string) (q_dict : DataFrame)
    (q25 q50 q75 : float) :
  boundaries q_dict r q25 q50 q75 →
  recencia_class x r q_dict = Ok (recency_policy x q25 q50 q75) ∧
  ((x ≤ q25)%Qc → recencia_class x r q_dict = Ok "A"%string) ∧
  ((q25 < x ≤ q50)%Qc → recencia_class x r q_dict = Ok "B"%string) ∧
  ((q25 ≤ q50)%Qc → (q50 < x ≤ q75)%Qc →
     recencia_class x r q_dict = Ok "C"%string) ∧
  (¬ (x ≤ q25)%Qc → ¬ (q25 < x ≤ q50)%Qc → ¬ (q50 < x ≤ q75)%Qc →
     recencia_class x r q_dict = Ok "D"%string).
Proof.
  intros H. cascade H. unfold recency_policy.
  repeat split; intros; split_le.
Qed.

Lemma recencia_class_policy_witness :
  boundaries ex_quartis "Recencia" (Q2Qc 10) (Q2Qc 20) (Q2Qc 30) ∧
  recencia_class (Q2Qc 25) "Recencia" ex_quartis = Ok "C"%string.
Proof.
  assert (H : boundaries ex_quartis "Recencia" (Q2Qc 10) (Q2Qc 20) (Q2Qc 30))
    by (repeat split; vm_compute; reflexivity).
  split; [exact H|].
  apply (recencia_class_policy (Q2Qc 25) "Recencia" ex_quartis
           (Q2Qc 10) (Q2Qc 20) (Q2Qc 30) H).
  - vm_compute. discriminate.
  - split; vm_compute; [reflexivity | discriminate].
Defined.

(** On a table whose boundaries are out of order the cases overlap and
    the first one that matches decides. *)
Example recencia_class_unordered :
  recencia_class (Q2Qc 6) "Recencia" ex_unordered = Ok "A"%string.
Proof. reflexivity. Qed.

(** C2. For every value [x] and every table holding boundaries [q25],
    [q50], [q75] for the metric, [freq_val_class] returns the grade of
    the frequency/value policy, its cases read in order: 'D' when
    x ≤ q25, 'C' when q25 < x ≤ q50, 'B' when q50 < x ≤ q75, 'A'
    otherwise. Each case also holds on its own; for 'B' this uses
    q25 ≤ q50. *)
Theorem freq_val_class_policy (x : float) (fv : string) (q_dict : DataFrame)
    (q25 q50 q75 : float) :
  boundaries q_dict fv q25 q50 q75 →
  freq_val_class x fv q_dict = Ok (frequency_value_policy x q25 q50 q75) ∧
  ((x ≤ q25)%Qc → freq_val_class x fv q_dict = Ok "D"%string) ∧
  ((q25 < x ≤ q50)%Qc → freq_val_class x fv q_dict = Ok "C"%string) ∧
  ((q25 ≤ q50)%Qc → (q50 < x ≤ q75)%Qc →
     freq_val_class x fv q_dict = Ok "B"%string) ∧
  (¬ (x ≤ q25)%Qc → ¬ (q25 < x ≤ q50)%Qc → ¬ (q50 < x ≤ q75)%Qc →
     freq_val_class x fv q_dict = Ok "A"%string).
Proof.
  intros H. cascade H. unfold frequency_value_policy.
  repeat split; intros; split_le.
Qed.

Lemma freq_val_class_policy_witness :
  boundaries ex_quartis "Valor" (Q2Qc (5 # 2)) (Q2Qc 4) (Q2Qc 4) ∧
  freq_val_class (Q2Qc 3) "Valor" ex_quartis = Ok "C"%string.
Proof.
  assert (H : boundaries ex_quartis "Valor" (Q2Qc (5 # 2)) (Q2Qc 4) (Q2Qc 4))
    by (repeat split; vm_compute; reflexivity).
  split; [exact H|].
  apply (freq_val_class_policy (Q2Qc 3) "Valor" ex_quartis
           (Q2Qc (5 # 2)) (Q2Qc 4) (Q2Qc 4) H).
  split; vm_compute; [reflexivity | discriminate].
Defined.

(** C3. Grading is total and ties go to the first bucket: on every
    table holding the three boundaries, each classifier returns exactly
    one grade, which is one of A, B, C, D; and a value equal to a
    boundary gets the first bucket its ≤ test reaches: at q25 the first
    bucket of the policy, at q50 the second unless q25 already took it,
    at q75 the third unless an earlier boundary took it. *)
Theorem grade_total_ties_first (x : float) (m : string) (q_dict : DataFrame)
    (q25 q50 q75 : float) :
  boundaries q_dict m q25 q50 q75 →
  (∃ g, g ∈ grades ∧ ∀ g', recencia_class x m q_dict = Ok g' ↔ g' = g) ∧
  (∃ g, g ∈ grades ∧ ∀ g', freq_val_class x m q_dict = Ok g' ↔ g' = g) ∧
  (x = q25 →
     recencia_class x m q_dict = Ok "A"%string ∧
     freq_val_class x m q_dict = Ok "D"%string) ∧
  (x = q50 → ¬ (x ≤ q25)%Qc →
     recencia_class x m q_dict = Ok "B"%string ∧
     freq_val_class x m q_dict = Ok "C"%string) ∧
  (x = q75 → ¬ (x ≤ q25)%Qc → ¬ (x ≤ q50)%Qc →
     recencia_class x m q_dict = Ok "C"%string ∧
     freq_val_class x m q_dict = Ok "B"%string).
Proof.
  intros H. do 2 cascade H. unfold grades.
  split; [|split]; [| |repeat split; intros; subst; split_le].
  - eexists. split; [|intros g'; split; [intros [= <-]; reflexivity|intros ->; reflexivity]].
    repeat case_bool_decide; set_solver.
  - eexists. split; [|intros g'; split; [intros [= <-]; reflexivity|intros ->; reflexivity]].
    repeat case_bool_decide; set_solver.
Qed.

Lemma grade_total_ties_first_witness :
  boundaries ex_quartis "Recencia" (Q2Qc 10) (Q2Qc 20) (Q2Qc 30) ∧
  recencia_class (Q2Qc 10) "Recencia" ex_quartis = Ok "A"%string ∧
  freq_val_class (Q2Qc 10) "Recencia" ex_quartis = Ok "D"%string.
Proof.
  assert (H : boundaries ex_quartis "Recencia" (Q2Qc 10) (Q2Qc 20) (Q2Qc 30))
    by (repeat split; vm_compute; reflexivity).
  split; [exact H|].
  apply (grade_total_ties_first (Q2Qc 10) "Recencia" ex_quartis
           (Q2Qc 10) (Q2Qc 20) (Q2Qc 30) H).
  reflexivity.
Defined.

(** C10. Grading is monotone in the direction of the policy: on a table
    with q25 ≤ q50 ≤ q75 and for x ≤ y, [recencia_class] grades x at
    least as well as y, and [freq_val_class] grades y at least as well
    as x, in the order D < C < B < A. *)
Theorem grading_monotone (x y : float) (m : string) (q_dict : DataFrame)
    (q25 q50 q75 : float) :
  boundaries q_dict m q25 q50 q75 →
  (q25 ≤ q50 ≤ q75)%Qc →
  (x ≤ y)%Qc →
  (∃ gx gy,
     recencia_class x m q_dict = Ok gx ∧ recencia_class y m q_dict = Ok gy ∧
     (grade_rank gy ≤ grade_rank gx)%nat) ∧
  (∃ gx gy,
     freq_val_class x m q_dict = Ok gx ∧ freq_val_class y m q_dict = Ok gy ∧
     (grade_rank gx ≤ grade_rank gy)%nat).
Proof.
  intros H Hord Hxy. split; do 2 eexists.
  - do 2 cascade H. split; [reflexivity|split; [reflexivity|]].
    repeat case_bool_decide; try (vm_compute; lia); qc_order.
  - do 2 cascade H. split; [reflexivity|split; [reflexivity|]].
    repeat case_bool_decide; try (vm_compute; lia); qc_order.
Qed.

Lemma grading_monotone_witness :
  boundaries ex_quartis "Recencia" (Q2Qc 10) (Q2Qc 20) (Q2Qc 30) ∧
  (Q2Qc 10 ≤ Q2Qc 20 ≤ Q2Qc 30)%Qc ∧ (Q2Qc 12 ≤ Q2Qc 25)%Qc ∧
  (∃ gx gy,
     recencia_class (Q2Qc 12) "Recencia" ex_quartis = Ok gx ∧
     recencia_class (Q2Qc 25) "Recencia" ex_quartis = Ok gy ∧
     (grade_rank gy ≤ grade_rank gx)%nat) ∧
  (∃ gx gy,
     freq_val_class (Q2Qc 12) "Recencia" ex_quartis = Ok gx ∧
     freq_val_class (Q2Qc 25) "Recencia" ex_quartis = Ok gy ∧
     (grade_rank gx ≤ grade_rank gy)%nat).
Proof.
  assert (H : boundaries ex_quartis "Recencia" (Q2Qc 10) (Q2Qc 20) (Q2Qc 30))
    by (repeat split; vm_compute; reflexivity).
  assert (Hord : (Q2Qc 10 ≤ Q2Qc 20 ≤ Q2Qc 30)%Qc)
    by (split; vm_compute; discriminate).
  assert (Hxy : (Q2Qc 12 ≤ Q2Qc 25)%Qc) by (vm_compute; discriminate).
  split; [exact H|]. split; [exact Hord|]. split; [exact Hxy|].
  exact (grading_monotone (Q2Qc 12) (Q2Qc 25) "Recencia" ex_quartis
           (Q2Qc 10) (Q2Qc 20) (Q2Qc 30) H Hord Hxy).
Defined.

(** ** The aggregation *)

Lemma keys_NoDup df : NoDup (keys df).
Proof.
  unfold keys. rewrite merge_sort_Permutation. apply NoDup_remove_dups.
Qed.

Lemma elem_of_keys df k : k ∈ keys df ↔ k ∈ ID_cliente <$> df.
Proof.
  unfold keys. rewrite merge_sort_Permutation. apply elem_of_remove_dups.
Qed.

Lemma group_nonempty df k : k ∈ keys df → group k df ≠ [].
Proof.
  rewrite elem_of_keys, list_elem_of_fmap. intros (t & -> & Ht) Hnil.
  eapply (filter_nil_not_elem_of _ _ t); [exact Hnil|reflexivity|exact Ht].
Qed.

(** A reduction that is defined on every group gives one row per key. *)
Lemma groupby_agg_rows {A} (agg : list Compra → option A) (f : Z → A) df :
  (∀ k, k ∈ keys df → agg (group k df) = Some (f k)) →
  groupby_agg agg df = (λ k, (k, f k)) <$> keys df.
Proof.
  unfold groupby_agg, groupby.
  generalize (keys df) as ks. intros ks Hks.
  induction ks as [|k ks IH]; [done|]. simpl.
  rewrite (Hks k) by set_solver. simpl.
  f_equal. apply IH. intros k' Hk'. apply Hks. set_solver.
Qed.

(** Joining two frames that hold one row per key of the same list. *)
Lemma merge_row {A B} (k : Z) (a : A) (g : Z → B) (ks : list Z) :
  NoDup ks → k ∈ ks →
  ((λ k', (k', g k')) <$> ks) ≫=
    (λ r, if decide (k = r.1) then [(k, (a, r.2))] else []) = [(k, (a, g k))].
Proof.
  induction 1 as [|k' ks Hk' Hnd IH]; intros Hin; [by apply elem_of_nil in Hin|].
  rewrite fmap_cons, bind_cons. simpl.
  destruct (decide (k = k')) as [->|Hne].
  - simpl. f_equal.
    clear IH Hin Hnd. induction ks as [|k ks IH]; [done|].
    apply not_elem_of_cons in Hk' as [Hne Hk'].
    rewrite fmap_cons, bind_cons. simpl.
    rewrite decide_False by done. simpl. by apply IH.
  - simpl. apply IH. set_solver.
Qed.

Lemma merge_rows {A B} (f : Z → A) (g : Z → B) (ks1 ks : list Z) :
  NoDup ks → ks1 ⊆ ks →
  DataFrame_merge ((λ k, (k, f k)) <$> ks1) ((λ k, (k, g k)) <$> ks)
  = (λ k, (k, (f k, g k))) <$> ks1.
Proof.
  intros Hnd. unfold DataFrame_merge.
  induction ks1 as [|k ks1 IH]; intros Hsub; [done|].
  rewrite !fmap_cons, bind_cons. simpl.
  rewrite (merge_row k (f k) g ks Hnd) by set_solver.
  simpl. f_equal. apply IH. set_solver.
Qed.

Lemma foldl_max_latest (l : list Timestamp) (a : Timestamp) :
  latest_of (a :: l) (foldl Z.max a l).
Proof.
  revert a. induction l as [|x l IH]; intros a; simpl.
  - split; [set_solver|]. intros y ?. assert (y = a) as -> by set_solver. lia.
  - destruct (IH (Z.max a x)) as [Hin Hub]. split.
    + apply elem_of_cons in Hin as [Heq|Hin]; [|set_solver].
      rewrite Heq. destruct (Z.max_spec a x) as [[_ ->]|[_ ->]]; set_solver.
    + intros y Hy.
      assert (y ≤ Z.max a x ∨ y ∈ l) as [Hle|Hl].
      { apply elem_of_cons in Hy as [->|Hy]; [left; lia|].
        apply elem_of_cons in Hy as [->|Hy]; [left; lia|by right]. }
      * etrans; [exact Hle|]. apply Hub. set_solver.
      * apply Hub. set_solver.
Qed.

Lemma Series_max_latest (l : list Timestamp) :
  l ≠ [] → ∃ d, Series_max l = Some d ∧ latest_of l d.
Proof.
  destruct l as [|a l]; [done|]. intros _. eexists. split; [reflexivity|].
  apply foldl_max_latest.
Qed.

Lemma Series_max_Some_latest (l : list Timestamp) d :
  Series_max l = Some d → latest_of l d.
Proof.
  destruct l as [|a l]; [done|]. intros [= <-]. apply foldl_max_latest.
Qed.

Lemma last_purchase_latest df k :
  k ∈ keys df →
  Series_max (DiaCompra <$> group k df) = Some (last_purchase k df) ∧
  latest_of (DiaCompra <$> group k df) (last_purchase k df).
Proof.
  intros Hk. unfold last_purchase.
  destruct (Series_max_latest (DiaCompra <$> group k df)) as (d & Hd & Hl).
  { intros Hnil%fmap_nil_inv. by apply (group_nonempty df k). }
  rewrite Hd. done.
Qed.

(** The aggregated table has the row of every customer, in key order. *)
Lemma df_RFV_rows df d :
  dia_atual df = Some d → df_RFV df = row_of d df <$> keys df.
Proof.
  intros Hd. unfold df_RFV, df_recencia, df_frequencia, df_valor. rewrite Hd.
  rewrite (groupby_agg_rows _ (λ k, last_purchase k df))
    by (intros k Hk; apply last_purchase_latest, Hk).
  rewrite (groupby_agg_rows _ (λ k, Series_count (CodigoCompra <$> group k df)))
    by done.
  rewrite (groupby_agg_rows _ (λ k, Series_sum (ValorTotal <$> group k df)))
    by done.
  rewrite <-list_fmap_compose.
  rewrite (merge_rows (λ k, Timedelta_days (d - last_purchase k df)) _ _ _
             (keys_NoDup df)) by done.
  rewrite (merge_rows
             (λ k, (Timedelta_days (d - last_purchase k df),
                    Series_count (CodigoCompra <$> group k df))) _ _ _
             (keys_NoDup df)) by done.
  rewrite <-list_fmap_compose. done.
Qed.

(** [dia_atual] is null only for a log without rows, where [groupby]
    has no group: the null branch of [df_recencia] drops no row. *)
Lemma dia_atual_null df (agg : list Compra → option Timestamp) :
  dia_atual df = None → df = [] ∧ groupby_agg agg df = [].
Proof.
  destruct df as [|t df]; [done|]. discriminate.
Qed.

Lemma dia_atual_latest df :
  df ≠ [] → ∃ d, dia_atual df = Some d ∧ latest_of (DiaCompra <$> df) d.
Proof.
  intros Hne. apply Series_max_latest. by intros ?%fmap_nil_inv.
Qed.

Lemma elem_of_df_RFV df d row :
  dia_atual df = Some d →
  row ∈ df_RFV df ↔ ∃ k, k ∈ ID_cliente <$> df ∧ row = row_of d df k.
Proof.
  intros Hd. rewrite (df_RFV_rows df d Hd), list_elem_of_fmap.
  split; intros (k & ? & ?); exists k; by rewrite ?elem_of_keys in *.
Qed.

Lemma filter_index_rows d df c (ks : list Z) :
  NoDup ks → c ∈ ks →
  filter (λ r, index r = c) (row_of d df <$> ks) = [row_of d df c].
Proof.
  induction 1 as [|k ks Hk Hnd IH]; intros Hin; [by apply elem_of_nil in Hin|].
  rewrite fmap_cons, filter_cons. simpl.
  destruct (decide (k = c)) as [->|Hne].
  - f_equal. clear IH Hin Hnd. induction ks as [|k ks IH]; [done|].
    apply not_elem_of_cons in Hk as [Hne Hk].
    rewrite fmap_cons, filter_cons. simpl.
    rewrite decide_False by done. by apply IH.
  - apply IH. apply elem_of_cons in Hin as [->|Hin]; done.
Qed.

Lemma Series_count_group c df :
  Series_count (CodigoCompra <$> group c df) = purchases_of c df.
Proof.
  unfold Series_count, group. rewrite length_fmap.
  induction df as [|t df IH]; [done|].
  rewrite filter_cons. simpl. rewrite <-IH.
  destruct (decide (ID_cliente t = c)); simpl; lia.
Qed.

Lemma foldl_Qcplus (a : Qc) (l : list Qc) :
  foldl Qcplus a l = (a + foldr Qcplus (Q2Qc 0) l)%Qc.
Proof.
  revert a. induction l as [|x l IH]; intros a; simpl.
  - ring.
  - rewrite IH. ring.
Qed.

Lemma Series_sum_group c df :
  Series_sum (ValorTotal <$> group c df) = spent_by c df.
Proof.
  unfold Series_sum, group. rewrite foldl_Qcplus.
  rewrite Qcplus_0_l.
  induction df as [|t df IH]; [done|].
  rewrite filter_cons. simpl. rewrite <-IH.
  destruct (decide (ID_cliente t = c)); simpl; [done|by rewrite Qcplus_0_l].
Qed.

Lemma dates_of_group c df : dates_of c df = DiaCompra <$> group c df.
Proof.
  unfold group. induction df as [|t df IH]; [done|].
  rewrite filter_cons. simpl.
  destruct (decide (ID_cliente t = c)); simpl; by rewrite IH.
Qed.

(** C4. For every non-empty log, [dia_atual] is the latest purchase date
    of the whole log; every customer of the log has a row, and in every
    row [Recencia] is the whole days from the latest of the purchase
    dates of that row's own customer to [dia_atual], and is not
    negative. *)
Theorem recency_from_latest_purchase (df : list Compra) :
  df ≠ [] →
  ∃ d, dia_atual df = Some d ∧ latest_of (DiaCompra <$> df) d ∧
    (∀ c, c ∈ ID_cliente <$> df → ∃ row, row ∈ df_RFV df ∧ index row = c) ∧
    (∀ row, row ∈ df_RFV df →
       ∃ last, latest_of (dates_of (index row) df) last ∧
         Recencia row = Timedelta_days (d - last) ∧
         ns_per_day * Recencia row ≤ d - last < ns_per_day * (Recencia row + 1) ∧
         0 ≤ Recencia row).
Proof.
  intros Hne. destruct (dia_atual_latest df Hne) as (d & Hd & Hlat).
  exists d. split; [exact Hd|]. split; [exact Hlat|]. split.
  - intros c Hc. exists (row_of d df c). split; [|done].
    apply (elem_of_df_RFV df d _ Hd). by exists c.
  - intros row (k & Hk & ->)%(elem_of_df_RFV df d _ Hd). simpl.
    apply elem_of_keys in Hk.
    destruct (last_purchase_latest df k Hk) as [_ Hlast].
    exists (last_purchase k df). split; [by rewrite dates_of_group|].
    assert (last_purchase k df ≤ d) as Hle.
    { destruct Hlast as [Hin _], Hlat as [_ Hub]. apply Hub.
      apply list_elem_of_fmap in Hin as (t & -> & Ht).
      apply list_elem_of_fmap. exists t. split; [done|].
      unfold group in Ht. by apply list_elem_of_filter in Ht as [_ ?]. }
    unfold Timedelta_days.
    assert (0 < ns_per_day) as Hpos by done.
    split; [done|]. split; [split|].
    + by apply Z.mul_div_le.
    + rewrite Z.mul_add_distr_l, Z.mul_1_r.
      pose proof (Z.mod_pos_bound (d - last_purchase k df) ns_per_day Hpos).
      pose proof (Z.div_mod (d - last_purchase k df) ns_per_day). lia.
    + apply Z.div_pos; lia.
Qed.

(** C5. For every non-empty log and every customer in it, the aggregated
    table holds exactly one row for that customer; its [Frequencia] is
    the number of the customer's purchases and its [Valor] the sum of
    their amounts. The table has no other rows: its index is the list of
    distinct customers. *)
Theorem one_record_per_customer (df : list Compra) (c : Z) :
  df ≠ [] →
  c ∈ ID_cliente <$> df →
  (∃ row, filter (λ r, index r = c) (df_RFV df) = [row] ∧
     Frequencia row = purchases_of c df ∧
     Valor row = spent_by c df) ∧
  index <$> df_RFV df ≡ₚ remove_dups (ID_cliente <$> df).
Proof.
  intros Hne Hc. destruct (dia_atual_latest df Hne) as (d & Hd & _).
  rewrite (df_RFV_rows df d Hd). split.
  - exists (row_of d df c).
    rewrite filter_index_rows by (apply keys_NoDup || by apply elem_of_keys).
    split; [done|]. simpl. split.
    + apply Series_count_group.
    + apply Series_sum_group.
  - rewrite <-list_fmap_compose.
    rewrite (list_fmap_ext (index ∘ row_of d df) id (keys df)) by done.
    rewrite list_fmap_id. apply merge_sort_Permutation.
Qed.

Lemma recency_from_latest_purchase_witness :
  ex_log ≠ [] ∧
  ∃ d, dia_atual ex_log = Some d ∧ latest_of (DiaCompra <$> ex_log) d ∧
    (∀ c, c ∈ ID_cliente <$> ex_log →
       ∃ row, row ∈ df_RFV ex_log ∧ index row = c) ∧
    (∀ row, row ∈ df_RFV ex_log →
       ∃ last, latest_of (dates_of (index row) ex_log) last ∧
         Recencia row = Timedelta_days (d - last) ∧
         ns_per_day * Recencia row ≤ d - last < ns_per_day * (Recencia row + 1) ∧
         0 ≤ Recencia row).
Proof.
  assert (H : ex_log ≠ []) by discriminate.
  split; [exact H|]. exact (recency_from_latest_purchase ex_log H).
Defined.

(** The example of the specification: purchases on day 0 and day 9, the
    log ending on day 19, give recency 10, frequency 2 and value 80. *)
Example df_RFV_ex_log :
  df_RFV ex_log =
    [ {| index := 3; Recencia := 0; Frequencia := 2; Valor := Q2Qc (63 # 2) |};
      {| index := 7; Recencia := 10; Frequencia := 2; Valor := Q2Qc 80 |} ].
Proof. vm_compute. reflexivity. Qed.

Lemma one_record_per_customer_witness :
  ex_log ≠ [] ∧ 7 ∈ ID_cliente <$> ex_log ∧
  (∃ row, filter (λ r, index r = 7) (df_RFV ex_log) = [row] ∧
     Frequencia row = purchases_of 7 ex_log ∧
     Valor row = spent_by 7 ex_log) ∧
  index <$> df_RFV ex_log ≡ₚ remove_dups (ID_cliente <$> ex_log).
Proof.
  assert (H : ex_log ≠ []) by discriminate.
  assert (H7 : 7 ∈ ID_cliente <$> ex_log) by (simpl; apply list_elem_of_here).
  split; [exact H|]. split; [exact H7|].
  exact (one_record_per_customer ex_log 7 H H7).
Defined.

(** ** The action table *)

(** C6. [map_acoes] sends 'AAA' to the retention text, 'DDD' to the
    inactive-customer text, and 'DAA' and 'CAA' to the reactivation
    text; every other score is sent to NaN ([None]), which is no action
    text and in particular none of the listed ones. The look-up is a
    total function: it raises nothing. *)
Theorem map_acoes_table :
  map_acoes "AAA" =
    Some "Enviar cupons de desconto, pedir indicação, enviar amostras grátis de novos produtos."%string ∧
  map_acoes "DDD" =
    Some "Clientes inativos com baixo gasto — monitorar ou desconsiderar ações."%string ∧
  map_acoes "DAA" =
    Some "Clientes que gastaram bastante mas estão sumindo — enviar cupom de reativação."%string ∧
  map_acoes "CAA" =
    Some "Clientes que gastaram bastante mas estão sumindo — enviar cupom de reativação."%string ∧
  ∀ score, score ∉ known_scores →
    map_acoes score = None ∧
    (∀ text, map_acoes score ≠ Some text) ∧
    (∀ known, known ∈ known_scores → map_acoes score ≠ map_acoes known).
Proof.
  do 4 (split; [reflexivity|]).
  intros score Hs. unfold known_scores in *.
  assert (map_acoes score = None) as Hnone.
  { unfold map_acoes, dict_acoes. simpl.
    repeat (apply not_elem_of_cons in Hs as [? Hs]).
    by rewrite !lookup_insert_ne, lookup_empty. }
  rewrite Hnone. split; [done|]. split; [done|].
  intros known Hk.
  repeat (apply elem_of_cons in Hk as [->|Hk]); [done..|].
  by apply elem_of_nil in Hk.
Qed.

Lemma map_acoes_table_witness :
  ("BBB"%string ∉ known_scores) ∧ map_acoes "BBB" = None.
Proof.
  assert (H : "BBB"%string ∉ known_scores).
  { unfold known_scores. rewrite !not_elem_of_cons.
    repeat split; try discriminate. apply not_elem_of_nil. }
  split; [exact H|].
  destruct map_acoes_table as (_ & _ & _ & _ & Hrest).
  exact (proj1 (Hrest "BBB"%string H)).
Defined.

(** ** The empty log *)

(** The run returns only for a log that has a row. *)
Lemma main_Ok_nonempty (df_compras : list Compra) (out : Output) :
  main df_compras = Ok out → df_compras ≠ [].
Proof. intros Hmain ->. discriminate. Qed.

(** The exception of line 105 is the only one a run can end with, and
    it is raised for the empty log only. *)
Lemma Timestamp_date_dia_atual (df_compras : list Compra) :
  df_compras ≠ [] →
  ∃ day, Timestamp_date (dia_atual df_compras) = Ok day.
Proof.
  intros Hne. destruct (dia_atual_latest df_compras Hne) as (d & -> & _).
  by eexists.
Qed.



(** ** Quartiles *)

(** Orders on [Qc] read on the underlying fractions. *)
Ltac qc2q :=
  unfold Qcle, Qclt, Qcminus, Qcplus, Qcmult, Qcopp, Qc_of_Z, Q2Qc in *;
  cbn [this] in *; rewrite ?Qred_correct in *.

Lemma lerp_between (lo hi p f : Q) :
  (lo <= hi)%Q → (f <= p)%Q → (p < f + 1)%Q →
  (lo <= lo + (hi + - lo) * (p + - f))%Q ∧
  (lo + (hi + - lo) * (p + - f) <= hi)%Q.
Proof. intros. split; nra. Qed.

Lemma lerp_same_cell (lo hi p p' f : Q) :
  (lo <= hi)%Q → (p <= p')%Q →
  (lo + (hi + - lo) * (p + - f) <= lo + (hi + - lo) * (p' + - f))%Q.
Proof. intros. nra. Qed.

Lemma sorted_lookup_le (s : list Qc) (i j : nat) (a b : Qc) :
  StronglySorted Qcle s →
  s !! i = Some a → s !! j = Some b → (i ≤ j)%nat → (a ≤ b)%Qc.
Proof.
  intros Hs. revert i j. induction Hs as [|x s Hs IH Hall]; intros i j; [done|].
  destruct i as [|i], j as [|j]; simpl; intros Hi Hj Hij.
  - injection Hi as ->. injection Hj as ->. apply Qcle_refl.
  - injection Hi as ->. rewrite Forall_forall in Hall. apply Hall.
    by eapply list_elem_of_lookup_2.
  - lia.
  - eapply IH; [exact Hi|exact Hj|lia].
Qed.

Section lerp.
Context (s : list Qc) (Hs : StronglySorted Qcle s).

(** The cell of a position inside the column: its two ends are in
    order and the interpolated value lies between them. *)
Lemma lerp_at_cell (pos : Qc) :
  (0 ≤ pos)%Qc → (pos ≤ Qc_of_Z (Z.of_nat (length s) - 1))%Qc →
  ∃ lo hi v,
    s !! Z.to_nat (Qfloor pos) = Some lo ∧
    hi = default lo (s !! S (Z.to_nat (Qfloor pos))) ∧
    lerp_at s pos = Some v ∧
    v = (lo + (hi - lo) * (pos - Qc_of_Z (Qfloor pos)))%Qc ∧
    (lo ≤ v)%Qc ∧ (v ≤ hi)%Qc.
Proof using Hs.
  intros H0 HN.
  assert (0 ≤ Qfloor pos ≤ Z.of_nat (length s) - 1) as Hi.
  { split.
    - exact (Qfloor_resp_le (Q2Qc 0) pos H0).
    - rewrite <-(Qfloor_Z (Z.of_nat (length s) - 1)).
      exact (Qfloor_resp_le pos _ HN). }
  destruct (lookup_lt_is_Some_2 s (Z.to_nat (Qfloor pos))) as [lo Hlo]; [lia|].
  exists lo, (default lo (s !! S (Z.to_nat (Qfloor pos)))). eexists.
  split; [exact Hlo|]. split; [reflexivity|].
  unfold lerp_at. cbv zeta. rewrite Hlo. simpl. split; [reflexivity|].
  split; [reflexivity|].
  assert (lo ≤ default lo (s !! S (Z.to_nat (Qfloor pos))))%Qc as Hlh.
  { destruct (s !! S (Z.to_nat (Qfloor pos))) as [hi|] eqn:Hhi; simpl.
    - eapply sorted_lookup_le; [exact Hs|exact Hlo|exact Hhi|lia].
    - apply Qcle_refl. }
  revert Hlh. generalize (default lo (s !! S (Z.to_nat (Qfloor pos)))).
  intros hi Hlh.
  pose proof (Qfloor_le pos) as Hfl. pose proof (Qlt_floor pos) as Hfu.
  rewrite inject_Z_plus in Hfu.
  change (inject_Z 1) with 1%Q in Hfu.
  split; qc2q; by apply lerp_between.
Qed.
End lerp.

Lemma lerp_at_mono (s : list Qc) (p p' : Qc) :
  StronglySorted Qcle s →
  (0 ≤ p)%Qc → (p ≤ p')%Qc → (p' ≤ Qc_of_Z (Z.of_nat (length s) - 1))%Qc →
  ∃ a b, lerp_at s p = Some a ∧ lerp_at s p' = Some b ∧ (a ≤ b)%Qc.
Proof.
  intros Hs H0 Hpp HN.
  destruct (lerp_at_cell s Hs p H0) as (lo & hi & v & Hlo & Hhi & Hv & Ev & Hlv & Hvh).
  { by etrans. }
  destruct (lerp_at_cell s Hs p') as (lo' & hi' & v' & Hlo' & Hhi' & Hv' & Ev' & Hlv' & Hvh').
  { by etrans. }
  { done. }
  exists v, v'. split; [exact Hv|]. split; [exact Hv'|].
  assert (Qfloor p ≤ Qfloor p') as Hfl by (by apply Qfloor_resp_le).
  assert (0 ≤ Qfloor p) as Hfl0.
  { rewrite <-(Qfloor_Z 0). by apply Qfloor_resp_le. }
  destruct (decide (Qfloor p = Qfloor p')) as [Heq|Hne].
  - rewrite <-Heq in *. rewrite Hlo in Hlo'. injection Hlo' as <-.
    rewrite <-Hhi in Hhi'. subst hi' v v'.
    assert (lo ≤ hi)%Qc as Hlh by (by etrans).
    clear -Hlh Hpp. qc2q. by apply lerp_same_cell.
  - assert (hi ≤ lo')%Qc; [|etrans; [exact Hvh|]; by etrans].
    assert (S (Z.to_nat (Qfloor p)) ≤ Z.to_nat (Qfloor p'))%nat as Hlt by lia.
    destruct (lookup_lt_is_Some_2 s (S (Z.to_nat (Qfloor p)))) as [h Hh].
    { apply lookup_lt_Some in Hlo'. lia. }
    rewrite Hh in Hhi. simpl in Hhi. subst hi.
    by eapply sorted_lookup_le.
Qed.

Lemma position_in_range (q q' n : Q) :
  (0 <= q)%Q → (q <= q')%Q → (q' <= 1)%Q → (0 <= n)%Q →
  (0 <= q * n)%Q ∧ (q * n <= q' * n)%Q ∧ (q' * n <= n)%Q.
Proof. intros. repeat split; nra. Qed.

(** Quantiles of a column with at least one row exist and grow with
    the level. *)
Lemma quantile_linear_mono (vals : list Qc) (q q' : Qc) :
  vals ≠ [] → (0 ≤ q)%Qc → (q ≤ q')%Qc → (q' ≤ 1)%Qc →
  ∃ a b, quantile_linear vals q = Some a ∧ quantile_linear vals q' = Some b ∧
         (a ≤ b)%Qc.
Proof.
  intros Hne H0 Hqq H1. unfold quantile_linear. cbv zeta.
  assert (StronglySorted Qcle (merge_sort Qcle vals)) as Hs
    by apply (StronglySorted_merge_sort _).
  assert (0 ≤ Z.of_nat (length (merge_sort Qcle vals)) - 1) as Hlen.
  { rewrite (Permutation_length (merge_sort_Permutation Qcle vals)).
    destruct vals; [done|simpl; lia]. }
  revert Hs Hlen. generalize (merge_sort Qcle vals). intros s Hs Hlen.
  assert (0 <= inject_Z (Z.of_nat (length s) - 1))%Q as Hn.
  { change 0%Q with (inject_Z 0). by rewrite <-Zle_Qle. }
  apply lerp_at_mono; [exact Hs|..]; clear Hs; qc2q.
  all: by apply (position_in_range q q').
Qed.

Lemma levels_in_range :
  (0 ≤ q025)%Qc ∧ (q025 ≤ q050)%Qc ∧ (q050 ≤ q075)%Qc ∧ (q075 ≤ 1)%Qc.
Proof. repeat split; vm_compute; discriminate. Qed.

(** The three quartiles of a column with at least one row. *)
Lemma Series_quantile_quartiles (vals : list Qc) :
  vals ≠ [] →
  ∃ a b c,
    quantile_linear vals q025 = Some a ∧ quantile_linear vals q050 = Some b ∧
    quantile_linear vals q075 = Some c ∧ (a ≤ b ≤ c)%Qc.
Proof.
  intros Hne. destruct levels_in_range as (H0 & H12 & H23 & H1).
  destruct (quantile_linear_mono vals q025 q050 Hne) as (a & b & Ha & Hb & Hab);
    [done|done|by repeat (etrans; [eassumption|])|].
  destruct (quantile_linear_mono vals q050 q075 Hne) as (b' & c & Hb' & Hc & Hbc);
    [by etrans|done|done|].
  rewrite Hb in Hb'. injection Hb' as <-. by exists a, b, c.
Qed.

Lemma Series_quantile_lookup (vals : list Qc) (a b c : Qc) :
  quantile_linear vals q025 = Some a → quantile_linear vals q050 = Some b →
  quantile_linear vals q075 = Some c →
  Series_quantile vals [q025; q050; q075] !! q025 = Some a ∧
  Series_quantile vals [q025; q050; q075] !! q050 = Some b ∧
  Series_quantile vals [q025; q050; q075] !! q075 = Some c.
Proof.
  intros Ha Hb Hc.
  unfold Series_quantile. simpl. rewrite Ha, Hb, Hc. simpl.
  by repeat split.
Qed.

(** The three columns of the quantile frame. *)
Lemma DataFrame_quantile_column (df : list RFV) (qs : list Qc) :
  DataFrame_quantile df qs !! "Recencia"%string
    = Some (Series_quantile (Qc_of_Z ∘ Recencia <$> df) qs) ∧
  DataFrame_quantile df qs !! "Frequencia"%string
    = Some (Series_quantile (Qc_of_Z ∘ Frequencia <$> df) qs) ∧
  DataFrame_quantile df qs !! "Valor"%string
    = Some (Series_quantile (Valor <$> df) qs).
Proof. by repeat split. Qed.

Lemma boundaries_of_column (quartis : DataFrame) (m : string) (vals : list Qc)
    (a b c : Qc) :
  quartis !! m = Some (Series_quantile vals [q025; q050; q075]) →
  quantile_linear vals q025 = Some a → quantile_linear vals q050 = Some b →
  quantile_linear vals q075 = Some c →
  boundaries quartis m a b c.
Proof.
  intros Hm Ha Hb Hc. unfold boundaries, boundary. rewrite Hm. simpl.
  by apply Series_quantile_lookup.
Qed.

(** The quantile frame of a population with at least one customer holds
    the three boundaries of every metric, in order. *)
Lemma DataFrame_quantile_boundaries (df : list RFV) (m : string) :
  df ≠ [] →
  m ∈ metric_names →
  ∃ q25 q50 q75,
    boundaries (DataFrame_quantile df [q025; q050; q075]) m q25 q50 q75 ∧
    (q25 ≤ q50 ≤ q75)%Qc.
Proof.
  intros Hne Hm.
  destruct (DataFrame_quantile_column df [q025; q050; q075]) as (HR & HF & HV).
  unfold metric_names in Hm.
  repeat (apply elem_of_cons in Hm as [->|Hm]); [..|by apply elem_of_nil in Hm].
  - destruct (Series_quantile_quartiles (Qc_of_Z ∘ Recencia <$> df))
      as (a & b & c & Ha & Hb & Hc & Hord); [by intros ?%fmap_nil_inv|].
    exists a, b, c. split; [|exact Hord]. by eapply boundaries_of_column.
  - destruct (Series_quantile_quartiles (Qc_of_Z ∘ Frequencia <$> df))
      as (a & b & c & Ha & Hb & Hc & Hord); [by intros ?%fmap_nil_inv|].
    exists a, b, c. split; [|exact Hord]. by eapply boundaries_of_column.
  - destruct (Series_quantile_quartiles (Valor <$> df))
      as (a & b & c & Ha & Hb & Hc & Hord); [by intros ?%fmap_nil_inv|].
    exists a, b, c. split; [|exact Hord]. by eapply boundaries_of_column.
Qed.

(** C8. For every population with at least one customer and each of the
    metrics Recencia, Frequencia and Valor, the quantile frame holds the
    three boundaries of the metric and they are in order:
    q25 ≤ q50 ≤ q75. *)
Theorem quartiles_ordered (df : list RFV) (m : string) :
  df ≠ [] →
  m ∈ metric_names →
  ∃ q25 q50 q75,
    boundaries (DataFrame_quantile df [q025; q050; q075]) m q25 q50 q75 ∧
    (q25 ≤ q50 ≤ q75)%Qc.
Proof. apply DataFrame_quantile_boundaries. Qed.

Lemma quartiles_ordered_witness :
  df_RFV ex_log ≠ [] ∧ ("Valor"%string ∈ metric_names) ∧
  ∃ q25 q50 q75,
    boundaries (DataFrame_quantile (df_RFV ex_log) [q025; q050; q075])
      "Valor" q25 q50 q75 ∧
    (q25 ≤ q50 ≤ q75)%Qc.
Proof.
  assert (H : df_RFV ex_log ≠ []) by (vm_compute; discriminate).
  assert (Hm : "Valor"%string ∈ metric_names)
    by (unfold metric_names; do 2 apply list_elem_of_further;
        apply list_elem_of_here).
  split; [exact H|]. split; [exact Hm|].
  exact (quartiles_ordered (df_RFV ex_log) "Valor" H Hm).
Defined.

(** The quartiles of the example log. *)
Example quartis_ex_log :
  boundaries (DataFrame_quantile (df_RFV ex_log) [q025; q050; q075])
    "Valor" (Q2Qc (349 # 8)) (Q2Qc (223 # 4)) (Q2Qc (543 # 8)).
Proof. repeat split; vm_compute; f_equal; by apply Qc_is_canon. Qed.

Lemma quantile_linear_single (v q : Qc) : quantile_linear [v] q = Some v.
Proof.
  unfold quantile_linear, lerp_at. cbv zeta. simpl length.
  change (Z.of_nat 1 - 1) with 0.
  assert (Qfloor (q * Qc_of_Z 0)%Qc = 0) as ->.
  { etrans; [|apply (Qfloor_Z 0)]. apply Qfloor_comp. qc2q.
    change (inject_Z 0) with 0%Q. ring. }
  simpl. f_equal. ring.
Qed.

(** C9. For a population of exactly one customer the quantile frame is
    defined and, for each metric, its three boundaries are that
    customer's value of the metric. *)
Theorem quartiles_single_customer (row : RFV) :
  let quartis := DataFrame_quantile [row] [q025; q050; q075] in
  boundaries quartis "Recencia" (Qc_of_Z (Recencia row))
    (Qc_of_Z (Recencia row)) (Qc_of_Z (Recencia row)) ∧
  boundaries quartis "Frequencia" (Qc_of_Z (Frequencia row))
    (Qc_of_Z (Frequencia row)) (Qc_of_Z (Frequencia row)) ∧
  boundaries quartis "Valor" (Valor row) (Valor row) (Valor row).
Proof.
  intros quartis.
  destruct (DataFrame_quantile_column [row] [q025; q050; q075])
    as (HR & HF & HV).
  repeat split;
    ((eapply boundaries_of_column; [eassumption|..]);
     apply quantile_linear_single).
Qed.

(** * Further properties *)

(** ** Reading the quantile frame *)

(** X1. When the frame has no column of the metric's name, both
    classifiers raise KeyError with that name, whatever the value. *)
Theorem classifiers_missing_column (x : float) (r : string) (q_dict : DataFrame) :
  q_dict !! r = None →
  recencia_class x r q_dict = Raise (KeyError (KStr r)) ∧
  freq_val_class x r q_dict = Raise (KeyError (KStr r)).
Proof.
  intros Hr. unfold recencia_class, freq_val_class, getitem2, frame_getitem.
  by rewrite Hr.
Qed.

Lemma classifiers_missing_column_witness :
  ex_quartis !! "Frequencia"%string = None ∧
  recencia_class (Q2Qc 3) "Frequencia" ex_quartis
    = Raise (KeyError (KStr "Frequencia")) ∧
  freq_val_class (Q2Qc 3) "Frequencia" ex_quartis
    = Raise (KeyError (KStr "Frequencia")).
Proof.
  assert (H : ex_quartis !! "Frequencia"%string = None) by reflexivity.
  split; [exact H|].
  exact (classifiers_missing_column (Q2Qc 3) "Frequencia" ex_quartis H).
Defined.

Lemma getitem2_column (q_dict : DataFrame) (r : string) (col : Series) (q : Qc) :
  q_dict !! r = Some col → getitem2 q_dict r q = series_getitem col q.
Proof. intros Hr. unfold getitem2, frame_getitem. by rewrite Hr. Qed.

(** X2. The boundaries are read one at a time: a value at or below the
    0.25 boundary is graded ('A' for recency, 'D' for frequency/value)
    from that boundary alone, whether or not the column holds the 0.50
    and 0.75 boundaries. *)
Theorem classifiers_first_bucket (x : float) (r : string) (q_dict : DataFrame)
    (q25 : float) :
  boundary q_dict r q025 = Some q25 →
  (x ≤ q25)%Qc →
  recencia_class x r q_dict = Ok "A"%string ∧
  freq_val_class x r q_dict = Ok "D"%string.
Proof.
  intros Hq Hx. unfold recencia_class, freq_val_class.
  rewrite (getitem2_boundary _ _ _ _ Hq). simpl.
  by rewrite bool_decide_true.
Qed.

(** A frame whose only boundary is the one at 0.25. *)
Lemma classifiers_first_bucket_witness :
  let q_dict : DataFrame :=
    {[ "Recencia"%string := {[ q025 := Q2Qc 10 ]} ]} in
  boundary q_dict "Recencia" q025 = Some (Q2Qc 10) ∧
  (Q2Qc 7 ≤ Q2Qc 10)%Qc ∧
  boundary q_dict "Recencia" q050 = None ∧
  recencia_class (Q2Qc 7) "Recencia" q_dict = Ok "A"%string ∧
  freq_val_class (Q2Qc 7) "Recencia" q_dict = Ok "D"%string.
Proof.
  intros q_dict.
  assert (H : boundary q_dict "Recencia" q025 = Some (Q2Qc 10))
    by (vm_compute; reflexivity).
  assert (Hx : (Q2Qc 7 ≤ Q2Qc 10)%Qc) by (vm_compute; discriminate).
  split; [exact H|]. split; [exact Hx|]. split; [vm_compute; reflexivity|].
  exact (classifiers_first_bucket (Q2Qc 7) "Recencia" q_dict (Q2Qc 10) H Hx).
Defined.

(** X3. A boundary that is missing from the column raises KeyError with
    its level as soon as it is read: the 0.25 boundary always, the 0.50
    boundary when the value is above the 0.25 one, the 0.75 boundary
    when the value is above both. *)
Theorem classifiers_missing_level (x : float) (r : string) (q_dict : DataFrame)
    (col : Series) :
  q_dict !! r = Some col →
  (col !! q025 = None →
     recencia_class x r q_dict = Raise (KeyError (KFloat q025)) ∧
     freq_val_class x r q_dict = Raise (KeyError (KFloat q025))) ∧
  (∀ q25, col !! q025 = Some q25 → ¬ (x ≤ q25)%Qc → col !! q050 = None →
     recencia_class x r q_dict = Raise (KeyError (KFloat q050)) ∧
     freq_val_class x r q_dict = Raise (KeyError (KFloat q050))) ∧
  (∀ q25 q50, col !! q025 = Some q25 → ¬ (x ≤ q25)%Qc →
     col !! q050 = Some q50 → ¬ (x ≤ q50)%Qc → col !! q075 = None →
     recencia_class x r q_dict = Raise (KeyError (KFloat q075)) ∧
     freq_val_class x r q_dict = Raise (KeyError (KFloat q075))).
Proof.
  intros Hr. unfold recencia_class, freq_val_class.
  rewrite !(getitem2_column _ _ _ _ Hr). unfold series_getitem.
  split; [|split].
  - by intros ->.
  - intros q25 -> Hx ->. simpl. by rewrite bool_decide_false.
  - intros q25 q50 -> Hx -> Hx' ->. simpl. by rewrite !bool_decide_false.
Qed.

Lemma classifiers_missing_level_witness :
  let col : Series := {[ q025 := Q2Qc 10 ]} in
  let q_dict : DataFrame := {[ "Recencia"%string := col ]} in
  q_dict !! "Recencia"%string = Some col ∧
  recencia_class (Q2Qc 12) "Recencia" q_dict = Raise (KeyError (KFloat q050)) ∧
  freq_val_class (Q2Qc 12) "Recencia" q_dict = Raise (KeyError (KFloat q050)).
Proof.
  intros col q_dict.
  assert (H : q_dict !! "Recencia"%string = Some col) by reflexivity.
  split; [exact H|].
  destruct (classifiers_missing_level (Q2Qc 12) "Recencia" q_dict col H)
    as (_ & H50 & _).
  apply (H50 (Q2Qc 10)).
  - vm_compute. reflexivity.
  - vm_compute. intros Hle. apply Hle. reflexivity.
  - vm_compute. reflexivity.
Defined.

(** X4. The two classifiers mirror each other: on every value and every
    frame, [freq_val_class] returns the grade at the other end of the
    scale from the one [recencia_class] returns (A for D, B for C, C for
    B, D for A), and raises the same exception when that one raises. *)
Theorem freq_val_class_mirror (x : float) (r : string) (q_dict : DataFrame) :
  freq_val_class x r q_dict = mirror_grade <$> recencia_class x r q_dict.
Proof.
  unfold recencia_class, freq_val_class.
  destruct (getitem2 q_dict r q025) as [q25|e]; simpl; [|done].
  destruct (bool_decide (x ≤ q25)%Qc); [done|].
  destruct (getitem2 q_dict r q050) as [q50|e]; simpl; [|done].
  destruct (bool_decide (x ≤ q50)%Qc); [done|].
  destruct (getitem2 q_dict r q075) as [q75|e]; simpl; [|done].
  by destruct (bool_decide (x ≤ q75)%Qc).
Qed.

(** ** The final table *)

Lemma mapM_grade_of {A} (f : A → result string) (l : list A) :
  (∀ x, x ∈ l → ∃ g, f x = Ok g) →
  mapM f l = Ok ((λ x, grade_of (f x)) <$> l).
Proof.
  induction l as [|x l IH]; intros Hf; [done|].
  destruct (Hf x) as [g Hg]; [set_solver|].
  simpl. rewrite Hg. simpl. rewrite IH by (intros; apply Hf; set_solver).
  done.
Qed.

Lemma zip_with_mk_row (a b c : RFV → string) (rfv : list RFV) :
  zip_with mk_row rfv (zip (a <$> rfv) (zip (b <$> rfv) (c <$> rfv)))
  = (λ m, mk_row m (a m, (b m, c m))) <$> rfv.
Proof.
  induction rfv as [|m rfv IH]; [done|].
  rewrite !fmap_cons. simpl. f_equal. exact IH.
Qed.

(** On the quantile frame of a population that has a row, the
    classifiers return a grade for every value of every metric. *)
Lemma classifiers_on_quartis (rfv : list RFV) (m : string) (x : float) :
  rfv ≠ [] → m ∈ metric_names →
  (∃ g, recencia_class x m (DataFrame_quantile rfv [q025; q050; q075]) = Ok g
        ∧ g ∈ grades) ∧
  (∃ g, freq_val_class x m (DataFrame_quantile rfv [q025; q050; q075]) = Ok g
        ∧ g ∈ grades).
Proof.
  intros Hne Hm.
  destruct (DataFrame_quantile_boundaries rfv m Hne Hm) as (a & b & c & Hq & _).
  do 2 cascade Hq. unfold grades.
  split; eexists; (split; [reflexivity|]); repeat case_bool_decide; set_solver.
Qed.

Lemma elem_of_metric_names :
  "Recencia"%string ∈ metric_names ∧ "Frequencia"%string ∈ metric_names ∧
  "Valor"%string ∈ metric_names.
Proof. unfold metric_names. set_solver. Qed.

(** The run on a log that has a row, in closed form. *)
Lemma main_table (df_compras : list Compra) :
  df_compras ≠ [] →
  main df_compras =
    Ok {| out_dia_atual := dia_atual df_compras;
          out_quartis := DataFrame_quantile (df_RFV df_compras) [q025; q050; q075];
          out_df_RFV :=
            graded_row (DataFrame_quantile (df_RFV df_compras) [q025; q050; q075])
              <$> df_RFV df_compras |}.
Proof.
  intros Hne. unfold main.
  destruct (Timestamp_date_dia_atual df_compras Hne) as [day ->].
  simpl. cbv zeta.
  set (rfv := df_RFV df_compras).
  set (quartis := DataFrame_quantile rfv [q025; q050; q075]).
  destruct elem_of_metric_names as (HR & HF & HV).
  assert (∀ x : RFV, x ∈ rfv → rfv ≠ []) as Hin.
  { intros x Hx ->. by apply elem_of_nil in Hx. }
  rewrite (mapM_grade_of (λ m, recencia_class (Qc_of_Z (Recencia m)) "Recencia" quartis)).
  2:{ intros x Hx.
      destruct (classifiers_on_quartis rfv "Recencia" (Qc_of_Z (Recencia x)))
        as [(g & Hg & _) _]; [by eapply Hin|done|by exists g]. }
  simpl.
  rewrite (mapM_grade_of (λ m, freq_val_class (Qc_of_Z (Frequencia m)) "Frequencia" quartis)).
  2:{ intros x Hx.
      destruct (classifiers_on_quartis rfv "Frequencia" (Qc_of_Z (Frequencia x)))
        as [_ (g & Hg & _)]; [by eapply Hin|done|by exists g]. }
  simpl.
  rewrite (mapM_grade_of (λ m, freq_val_class (Valor m) "Valor" quartis)).
  2:{ intros x Hx.
      destruct (classifiers_on_quartis rfv "Valor" (Valor x))
        as [_ (g & Hg & _)]; [by eapply Hin|done|by exists g]. }
  simpl. do 2 f_equal.
  exact (zip_with_mk_row
           (λ m, grade_of (recencia_class (Qc_of_Z (Recencia m)) "Recencia" quartis))
           (λ m, grade_of (freq_val_class (Qc_of_Z (Frequencia m)) "Frequencia" quartis))
           (λ m, grade_of (freq_val_class (Valor m) "Valor" quartis)) rfv).
Qed.

(** The rows of the final table and what the classifiers returned. *)
Lemma main_rows (df_compras : list Compra) (out : Output) (r : RFV_row) :
  main df_compras = Ok out → r ∈ out_df_RFV out →
  metrics r ∈ df_RFV df_compras ∧
  r = graded_row (out_quartis out) (metrics r) ∧
  recencia_class (Qc_of_Z (Recencia (metrics r))) "Recencia" (out_quartis out)
    = Ok (R_quartil r) ∧
  freq_val_class (Qc_of_Z (Frequencia (metrics r))) "Frequencia" (out_quartis out)
    = Ok (F_quartil r) ∧
  freq_val_class (Valor (metrics r)) "Valor" (out_quartis out)
    = Ok (V_quartil r) ∧
  R_quartil r ∈ grades ∧ F_quartil r ∈ grades ∧ V_quartil r ∈ grades.
Proof.
  intros Hmain. pose proof (main_Ok_nonempty _ _ Hmain) as Hlog.
  rewrite (main_table _ Hlog) in Hmain. injection Hmain as <-. simpl.
  intros (m & -> & Hm)%list_elem_of_fmap. simpl.
  assert (df_RFV df_compras ≠ []) as Hne.
  { intros Hnil. rewrite Hnil in Hm. by apply elem_of_nil in Hm. }
  destruct elem_of_metric_names as (HR & HF & HV).
  destruct (classifiers_on_quartis _ "Recencia" (Qc_of_Z (Recencia m)) Hne HR)
    as [(gr & -> & ?) _].
  destruct (classifiers_on_quartis _ "Frequencia" (Qc_of_Z (Frequencia m)) Hne HF)
    as [_ (gf & Hgf & ?)].
  destruct (classifiers_on_quartis _ "Valor" (Valor m) Hne HV)
    as [_ (gv & Hgv & ?)].
  unfold graded_row. rewrite Hgf, Hgv. simpl. done.
Qed.

Lemma df_RFV_index (df : list Compra) : index <$> df_RFV df = keys df.
Proof.
  destruct df as [|t df]; [done|].
  destruct (dia_atual_latest (t :: df)) as (d & Hd & _); [done|].
  rewrite (df_RFV_rows _ d Hd), <-list_fmap_compose.
  rewrite (list_fmap_ext (index ∘ row_of d (t :: df)) id (keys (t :: df))) by done.
  apply list_fmap_id.
Qed.

Lemma map_acoes_known (score : string) :
  is_Some (map_acoes score) ↔ score ∈ known_scores.
Proof.
  unfold known_scores. split.
  - intros Hs. destruct (decide (score ∈ ["AAA"; "DDD"; "DAA"; "CAA"]%string))
      as [Hin|Hout]; [done|].
    exfalso. revert Hs. unfold map_acoes, dict_acoes. simpl.
    repeat (apply not_elem_of_cons in Hout as [? Hout]).
    rewrite !lookup_insert_ne, lookup_empty by done. by intros [? ?].
  - intros Hk. repeat (apply elem_of_cons in Hk as [->|Hk]); [by eexists..|].
    by apply elem_of_nil in Hk.
Qed.

(** X5. Every log that has a row is run to the end without an
    exception, and the final table lists the customers of the log once
    each, in increasing order of ID_cliente. *)
Theorem nonempty_log_returns (df_compras : list Compra) :
  df_compras ≠ [] →
  ∃ out, main df_compras = Ok out ∧
    NoDup (index ∘ metrics <$> out_df_RFV out) ∧
    Sorted Z.le (index ∘ metrics <$> out_df_RFV out) ∧
    ∀ c, c ∈ index ∘ metrics <$> out_df_RFV out ↔ c ∈ ID_cliente <$> df_compras.
Proof.
  intros Hne. eexists. split; [by apply main_table|]. simpl.
  rewrite <-list_fmap_compose.
  rewrite (list_fmap_ext _ index (df_RFV df_compras)) by done.
  rewrite df_RFV_index. split; [apply keys_NoDup|]. split.
  - apply (Sorted_merge_sort _).
  - intros c. apply elem_of_keys.
Qed.

Lemma nonempty_log_returns_witness :
  ex_log ≠ [] ∧
  ∃ out, main ex_log = Ok out ∧
    NoDup (index ∘ metrics <$> out_df_RFV out) ∧
    Sorted Z.le (index ∘ metrics <$> out_df_RFV out) ∧
    ∀ c, c ∈ index ∘ metrics <$> out_df_RFV out ↔ c ∈ ID_cliente <$> ex_log.
Proof.
  assert (H : ex_log ≠ []) by discriminate.
  split; [exact H|]. exact (nonempty_log_returns ex_log H).
Defined.

(** X6. Every row of the final table carries an aggregated row of the
    log together with what the run computed from it: its three grades
    are the classifiers' results for its Recencia, Frequencia and Valor
    against the quantile frame of the run, its score is the three
    grades joined in that order, and its action is the entry of
    [dict_acoes] for that score. *)
Theorem final_table_rows (df_compras : list Compra) (out : Output) (r : RFV_row) :
  main df_compras = Ok out →
  r ∈ out_df_RFV out →
  metrics r ∈ df_RFV df_compras ∧
  recencia_class (Qc_of_Z (Recencia (metrics r))) "Recencia" (out_quartis out)
    = Ok (R_quartil r) ∧
  freq_val_class (Qc_of_Z (Frequencia (metrics r))) "Frequencia" (out_quartis out)
    = Ok (F_quartil r) ∧
  freq_val_class (Valor (metrics r)) "Valor" (out_quartis out)
    = Ok (V_quartil r) ∧
  RFV_Score r = (R_quartil r +:+ F_quartil r +:+ V_quartil r)%string ∧
  acoes_de_marketing_crm r = dict_acoes !! RFV_Score r.
Proof.
  intros Hmain Hr.
  destruct (main_rows _ _ _ Hmain Hr) as (Hm & Hg & HR & HF & HV & _).
  repeat (split; [assumption|]). rewrite Hg. done.
Qed.

Lemma final_table_rows_witness :
  main ex_log = Ok ex_out ∧ ex_row ∈ out_df_RFV ex_out ∧
  RFV_Score ex_row = (R_quartil ex_row +:+ F_quartil ex_row +:+ V_quartil ex_row)%string ∧
  acoes_de_marketing_crm ex_row = dict_acoes !! RFV_Score ex_row.
Proof.
  assert (Hmain : main ex_log = Ok ex_out) by (vm_compute; reflexivity).
  assert (Hr : ex_row ∈ out_df_RFV ex_out)
    by (vm_compute; apply list_elem_of_here).
  split; [exact Hmain|]. split; [exact Hr|].
  apply (final_table_rows ex_log ex_out ex_row Hmain Hr).
Defined.

(** X7. Every score of the final table is made of exactly three letters
    out of A, B, C, D, and a row has an action text exactly when its
    score is one of AAA, DDD, DAA, CAA. *)
Theorem final_table_scores (df_compras : list Compra) (out : Output) (r : RFV_row) :
  main df_compras = Ok out →
  r ∈ out_df_RFV out →
  (∃ a b c, a ∈ grades ∧ b ∈ grades ∧ c ∈ grades ∧
     RFV_Score r = (a +:+ b +:+ c)%string) ∧
  String.length (RFV_Score r) = 3%nat ∧
  (is_Some (acoes_de_marketing_crm r) ↔ RFV_Score r ∈ known_scores).
Proof.
  intros Hmain Hr.
  destruct (main_rows _ _ _ Hmain Hr) as (_ & Hg & _ & _ & _ & HR & HF & HV).
  assert (RFV_Score r = (R_quartil r +:+ F_quartil r +:+ V_quartil r)%string)
    as Hs by (by rewrite Hg).
  assert (acoes_de_marketing_crm r = map_acoes (RFV_Score r)) as Ha
    by (by rewrite Hg).
  split; [by exists (R_quartil r), (F_quartil r), (V_quartil r)|].
  split; [|rewrite Ha; apply map_acoes_known].
  rewrite Hs. unfold grades in *.
  repeat (apply elem_of_cons in HR as [->|HR]); [..|by apply elem_of_nil in HR];
  (repeat (apply elem_of_cons in HF as [->|HF]); [..|by apply elem_of_nil in HF]);
  (repeat (apply elem_of_cons in HV as [->|HV]); [..|by apply elem_of_nil in HV]);
  reflexivity.
Qed.

Lemma final_table_scores_witness :
  main ex_log = Ok ex_out ∧ ex_row ∈ out_df_RFV ex_out ∧
  String.length (RFV_Score ex_row) = 3%nat ∧
  (is_Some (acoes_de_marketing_crm ex_row) ↔ RFV_Score ex_row ∈ known_scores).
Proof.
  assert (Hmain : main ex_log = Ok ex_out) by (vm_compute; reflexivity).
  assert (Hr : ex_row ∈ out_df_RFV ex_out)
    by (vm_compute; apply list_elem_of_here).
  split; [exact Hmain|]. split; [exact Hr|].
  apply (final_table_scores ex_log ex_out ex_row Hmain Hr).
Defined.

(** ** What the aggregation keeps *)

Lemma total_Z_add (f g : Z → Z) (ks : list Z) :
  total_Z ((λ k, f k + g k) <$> ks) = total_Z (f <$> ks) + total_Z (g <$> ks).
Proof.
  unfold total_Z. induction ks as [|k ks IH]; [done|].
  rewrite !fmap_cons. simpl. rewrite IH. lia.
Qed.

Lemma total_Z_one (c a : Z) (ks : list Z) :
  NoDup ks →
  total_Z ((λ k, if decide (c = k) then a else 0) <$> ks)
  = if decide (c ∈ ks) then a else 0.
Proof.
  unfold total_Z. induction 1 as [|k ks Hk Hnd IH]; [done|].
  rewrite fmap_cons. simpl. rewrite IH.
  destruct (decide (c = k)) as [->|Hne].
  - rewrite decide_False by done. rewrite decide_True by set_solver. lia.
  - destruct (decide (c ∈ ks)).
    + rewrite decide_True by set_solver. lia.
    + rewrite decide_False by set_solver. lia.
Qed.

Lemma total_Qc_add (f g : Z → Qc) (ks : list Z) :
  total_Qc ((λ k, f k + g k)%Qc <$> ks)
  = (total_Qc (f <$> ks) + total_Qc (g <$> ks))%Qc.
Proof.
  unfold total_Qc. induction ks as [|k ks IH]; [simpl; ring|].
  rewrite !fmap_cons. simpl. rewrite IH. ring.
Qed.

Lemma total_Qc_one (c : Z) (a : Qc) (ks : list Z) :
  NoDup ks →
  total_Qc ((λ k, if decide (c = k) then a else Q2Qc 0) <$> ks)
  = if decide (c ∈ ks) then a else Q2Qc 0.
Proof.
  unfold total_Qc. induction 1 as [|k ks Hk Hnd IH]; [done|].
  rewrite fmap_cons. simpl. rewrite IH.
  destruct (decide (c = k)) as [->|Hne].
  - rewrite decide_False by done. rewrite decide_True by set_solver. ring.
  - destruct (decide (c ∈ ks)).
    + rewrite decide_True by set_solver. ring.
    + rewrite decide_False by set_solver. ring.
Qed.

(** Summed over a list of distinct customers that covers the log, the
    purchase counts give the number of rows of the log. *)
Lemma purchases_of_total (df : list Compra) (ks : list Z) :
  NoDup ks → (∀ t, t ∈ df → ID_cliente t ∈ ks) →
  total_Z ((λ k, purchases_of k df) <$> ks) = Z.of_nat (length df).
Proof.
  intros Hnd. induction df as [|t df IH]; intros Hcov.
  - clear. simpl. unfold total_Z. induction ks as [|k ks IHk]; [done|].
    rewrite fmap_cons. simpl. by rewrite IHk.
  - simpl purchases_of.
    rewrite (total_Z_add (λ k, if decide (ID_cliente t = k) then 1 else 0)
               (λ k, purchases_of k df)).
    rewrite (total_Z_one _ 1 ks Hnd).
    rewrite decide_True by (apply Hcov; set_solver).
    rewrite IH by (intros; apply Hcov; set_solver).
    rewrite length_cons. lia.
Qed.

Lemma spent_by_total (df : list Compra) (ks : list Z) :
  NoDup ks → (∀ t, t ∈ df → ID_cliente t ∈ ks) →
  total_Qc ((λ k, spent_by k df) <$> ks) = total_Qc (ValorTotal <$> df).
Proof.
  intros Hnd. induction df as [|t df IH]; intros Hcov.
  - clear. simpl. unfold total_Qc. induction ks as [|k ks IHk]; [done|].
    rewrite fmap_cons. simpl. rewrite IHk. ring.
  - simpl spent_by.
    rewrite (total_Qc_add (λ k, if decide (ID_cliente t = k) then ValorTotal t else Q2Qc 0)
               (λ k, spent_by k df)).
    rewrite (total_Qc_one _ (ValorTotal t) ks Hnd).
    rewrite decide_True by (apply Hcov; set_solver).
    rewrite IH by (intros; apply Hcov; set_solver). done.
Qed.

Lemma keys_cover (df : list Compra) (t : Compra) :
  t ∈ df → ID_cliente t ∈ keys df.
Proof. intros Ht. apply elem_of_keys, list_elem_of_fmap. by exists t. Qed.

(** X8. The aggregation loses no purchase and invents none: every
    aggregated row counts at least one purchase, the frequencies of all
    rows add up to the number of rows of the log, and the values of all
    rows add up to the sum of all amounts of the log. *)
Theorem aggregation_keeps_totals (df_compras : list Compra) :
  (∀ row, row ∈ df_RFV df_compras → 1 ≤ Frequencia row) ∧
  total_Z (Frequencia <$> df_RFV df_compras) = Z.of_nat (length df_compras) ∧
  total_Qc (Valor <$> df_RFV df_compras) = total_Qc (ValorTotal <$> df_compras).
Proof.
  destruct df_compras as [|t df]; [split; [by intros ? ?%elem_of_nil|done]|].
  destruct (dia_atual_latest (t :: df)) as (d & Hd & _); [done|].
  rewrite (df_RFV_rows _ d Hd). split; [|split].
  - intros row (k & -> & Hk)%list_elem_of_fmap. simpl.
    pose proof (group_nonempty _ _ Hk) as Hne. unfold Series_count.
    rewrite length_fmap. destruct (group k (t :: df)); [done|simpl; lia].
  - rewrite <-list_fmap_compose.
    rewrite (list_fmap_ext _ (λ k, purchases_of k (t :: df)) (keys (t :: df)))
      by (intros; simpl; apply Series_count_group).
    apply purchases_of_total; [apply keys_NoDup|apply keys_cover].
  - rewrite <-list_fmap_compose.
    rewrite (list_fmap_ext _ (λ k, spent_by k (t :: df)) (keys (t :: df)))
      by (intros; simpl; apply Series_sum_group).
    apply spent_by_total; [apply keys_NoDup|apply keys_cover].
Qed.

Lemma aggregation_keeps_totals_witness :
  ex_row ∈ out_df_RFV ex_out ∧ metrics ex_row ∈ df_RFV ex_log ∧
  1 ≤ Frequencia (metrics ex_row).
Proof.
  assert (Hr : metrics ex_row ∈ df_RFV ex_log)
    by (vm_compute; apply list_elem_of_here).
  split; [vm_compute; apply list_elem_of_here|]. split; [exact Hr|].
  exact (proj1 (aggregation_keeps_totals ex_log) (metrics ex_row) Hr).
Defined.

(** ** The order of the log *)

Lemma keys_Permutation (df df' : list Compra) : df ≡ₚ df' → keys df = keys df'.
Proof.
  intros Hp. unfold keys. apply (Sorted_unique Z.le).
  - apply (Sorted_merge_sort _).
  - apply (Sorted_merge_sort _).
  - rewrite !merge_sort_Permutation.
    apply NoDup_Permutation; [apply NoDup_remove_dups..|].
    intros k. rewrite !elem_of_remove_dups. by rewrite Hp.
Qed.

Lemma Series_max_Permutation (l l' : list Timestamp) :
  l ≡ₚ l' → Series_max l = Series_max l'.
Proof.
  intros Hp. destruct l as [|a l].
  - by apply Permutation_nil_l in Hp as ->.
  - destruct (Series_max_latest (a :: l)) as (d & Hd & Hin & Hub); [done|].
    destruct (Series_max_latest l') as (d' & Hd' & Hin' & Hub').
    { intros ->. by apply Permutation_nil_r in Hp. }
    rewrite Hd, Hd'. f_equal. apply Z.le_antisymm.
    + apply Hub'. by rewrite <-Hp.
    + apply Hub. by rewrite Hp.
Qed.

Lemma purchases_of_Permutation (c : Z) (df df' : list Compra) :
  df ≡ₚ df' → purchases_of c df = purchases_of c df'.
Proof.
  induction 1 as [|t df df' _ IH|t t' df|df df' df'' _ IH _ IH']; simpl.
  - done.
  - by rewrite IH.
  - lia.
  - by rewrite IH.
Qed.

Lemma dated_row_of_Permutation (d : Timestamp) (df df' : list Compra) (k : Z) :
  df ≡ₚ df' → dated (row_of d df k) = dated (row_of d df' k).
Proof.
  intros Hp. unfold dated, row_of, last_purchase. simpl.
  rewrite !Series_count_group.
  rewrite (purchases_of_Permutation k df df' Hp).
  rewrite (Series_max_Permutation (DiaCompra <$> group k df)
             (DiaCompra <$> group k df')); [done|].
  unfold group. by rewrite Hp.
Qed.

Lemma dated_Permutation (df df' : list Compra) :
  df ≡ₚ df' →
  dia_atual df = dia_atual df' ∧ dated <$> df_RFV df = dated <$> df_RFV df'.
Proof.
  intros Hp.
  assert (dia_atual df = dia_atual df') as Hd.
  { unfold dia_atual. apply Series_max_Permutation. by rewrite Hp. }
  split; [exact Hd|].
  destruct (dia_atual df) as [d|] eqn:Hdd.
  - rewrite (df_RFV_rows df d Hdd), (df_RFV_rows df' d) by done.
    rewrite (keys_Permutation df df' Hp), <-!list_fmap_compose.
    apply list_fmap_ext. intros _ k _. by apply dated_row_of_Permutation.
  - destruct df as [|t df]; [|done].
    by apply Permutation_nil_l in Hp as ->.
Qed.

(** The classifiers read one column of the frame only. *)
Lemma classifier_column (x : float) (m : string) (q q' : DataFrame) :
  q !! m = q' !! m →
  recencia_class x m q = recencia_class x m q' ∧
  freq_val_class x m q = freq_val_class x m q'.
Proof.
  intros Hm. unfold recencia_class, freq_val_class, getitem2, frame_getitem.
  by rewrite Hm.
Qed.

(** The R and F grades of a final table are a function of the integer
    cells of its aggregated rows. *)
Lemma graded_RF_dated (rfv : list RFV) :
  graded_RF <$> (graded_row (DataFrame_quantile rfv [q025; q050; q075]) <$> rfv)
  = RF_grades (dated <$> rfv).
Proof.
  unfold RF_grades. cbv zeta. rewrite <-!list_fmap_compose.
  destruct (DataFrame_quantile_column rfv [q025; q050; q075]) as (CR & CF & _).
  apply list_fmap_ext. intros _ m _. unfold graded_RF, graded_row. simpl.
  destruct (classifier_column (Qc_of_Z (Recencia m)) "Recencia"
              (DataFrame_quantile rfv [q025; q050; q075])
              {[ "Recencia"%string :=
                   Series_quantile (Qc_of_Z ∘ Recencia <$> rfv) [q025; q050; q075] ]})
    as [ER _]; [by rewrite CR, lookup_singleton_eq|].
  destruct (classifier_column (Qc_of_Z (Frequencia m)) "Frequencia"
              (DataFrame_quantile rfv [q025; q050; q075])
              {[ "Frequencia"%string :=
                   Series_quantile (Qc_of_Z ∘ Frequencia <$> rfv) [q025; q050; q075] ]})
    as [_ EF]; [by rewrite CF, lookup_singleton_eq|].
  rewrite ER, EF. reflexivity.
Qed.

(** X9. What the run computes on integers does not depend on the order
    of the rows of the log: two logs with the same rows in a different
    order have the same [dia_atual] and the same customers with the
    same Recencia and Frequencia, and their runs give every customer
    the same R and F grade. *)
Theorem log_order_keeps_dates_and_counts (df df' : list Compra) :
  df ≡ₚ df' →
  dia_atual df = dia_atual df' ∧
  dated <$> df_RFV df = dated <$> df_RFV df' ∧
  ∀ out out', main df = Ok out → main df' = Ok out' →
    graded_RF <$> out_df_RFV out = graded_RF <$> out_df_RFV out'.
Proof.
  intros Hp. destruct (dated_Permutation df df' Hp) as [Hd Hrfv].
  split; [exact Hd|]. split; [exact Hrfv|].
  intros out out' Hmain Hmain'.
  rewrite (main_table _ (main_Ok_nonempty _ _ Hmain)) in Hmain.
  rewrite (main_table _ (main_Ok_nonempty _ _ Hmain')) in Hmain'.
  injection Hmain as <-. injection Hmain' as <-. simpl.
  by rewrite !graded_RF_dated, Hrfv.
Qed.

Lemma log_order_keeps_dates_and_counts_witness :
  ex_log ≡ₚ reverse ex_log ∧
  dia_atual ex_log = dia_atual (reverse ex_log) ∧
  dated <$> df_RFV ex_log = dated <$> df_RFV (reverse ex_log) ∧
  ∀ out out', main ex_log = Ok out → main (reverse ex_log) = Ok out' →
    graded_RF <$> out_df_RFV out = graded_RF <$> out_df_RFV out'.
Proof.
  assert (H : ex_log ≡ₚ reverse ex_log) by (symmetry; apply reverse_Permutation).
  split; [exact H|].
  exact (log_order_keeps_dates_and_counts ex_log (reverse ex_log) H).
Defined.

(** ** Quartiles and the extreme customers *)

(** A quantile of a column lies between two of its cells, hence above
    every lower bound and below every upper bound of the column. *)
Lemma quantile_linear_between (vals : list Qc) (q : Qc) :
  vals ≠ [] → (0 ≤ q)%Qc → (q ≤ 1)%Qc →
  ∃ v, quantile_linear vals q = Some v ∧
    (∀ lo, (∀ x, x ∈ vals → (lo ≤ x)%Qc) → (lo ≤ v)%Qc) ∧
    (∀ hi, (∀ x, x ∈ vals → (x ≤ hi)%Qc) → (v ≤ hi)%Qc).
Proof.
  intros Hne H0 H1. unfold quantile_linear. cbv zeta.
  assert (StronglySorted Qcle (merge_sort Qcle vals)) as Hs
    by apply (StronglySorted_merge_sort _).
  assert (0 ≤ Z.of_nat (length (merge_sort Qcle vals)) - 1) as Hlen.
  { rewrite (Permutation_length (merge_sort_Permutation Qcle vals)).
    destruct vals; [done|simpl; lia]. }
  assert (∀ x, x ∈ merge_sort Qcle vals → x ∈ vals) as Hin
    by (intros x; by rewrite merge_sort_Permutation).
  revert Hs Hlen Hin. generalize (merge_sort Qcle vals). intros s Hs Hlen Hin.
  assert (0 <= inject_Z (Z.of_nat (length s) - 1))%Q as Hn.
  { change 0%Q with (inject_Z 0). by rewrite <-Zle_Qle. }
  destruct (lerp_at_cell s Hs (q * Qc_of_Z (Z.of_nat (length s) - 1))%Qc)
    as (lo & hi & v & Hlo & Hhi & Hv & _ & Hlv & Hvh).
  { clear -H0 H1 Hn. qc2q.
    apply (position_in_range q q); [done|apply Qle_refl|done|done]. }
  { clear -H0 H1 Hn. qc2q.
    apply (position_in_range q q); [done|apply Qle_refl|done|done]. }
  exists v. split; [exact Hv|].
  assert (lo ∈ s) as Hlos by (by eapply list_elem_of_lookup_2).
  assert (hi ∈ s) as Hhis.
  { subst hi. destruct (s !! S _) as [h|] eqn:Hh; simpl; [|done].
    by eapply list_elem_of_lookup_2. }
  split.
  - intros b Hb. etrans; [apply Hb, Hin, Hlos|done].
  - intros b Hb. etrans; [exact Hvh|apply Hb, Hin, Hhis].
Qed.

(** X10. Every quantile of a column with at least one row, at a level
    between 0 and 1, lies within the range of the column: it is at least
    any value that no cell goes below and at most any value that no cell
    exceeds. In particular the quartiles of a column whose cells are all
    equal are that one value. *)
Theorem quantile_within_range (vals : list float) (q : Qc) (lo hi : float) :
  vals ≠ [] → (0 ≤ q ≤ 1)%Qc →
  (∀ x, x ∈ vals → (lo ≤ x ≤ hi)%Qc) →
  ∃ v, quantile_linear vals q = Some v ∧ (lo ≤ v ≤ hi)%Qc.
Proof.
  intros Hne [H0 H1] Hb.
  destruct (quantile_linear_between vals q Hne H0 H1) as (v & Hv & Hlo & Hhi).
  exists v. split; [exact Hv|]. split.
  - apply Hlo. intros x Hx. by apply Hb.
  - apply Hhi. intros x Hx. by apply Hb.
Qed.

Lemma quantile_within_range_witness :
  ∃ v, quantile_linear [Q2Qc 4; Q2Qc 1; Q2Qc 3] q075 = Some v ∧
       (Q2Qc 1 ≤ v ≤ Q2Qc 4)%Qc.
Proof.
  apply (quantile_within_range [Q2Qc 4; Q2Qc 1; Q2Qc 3] q075 (Q2Qc 1) (Q2Qc 4)).
  - discriminate.
  - split; vm_compute; discriminate.
  - intros x Hx.
    repeat (apply elem_of_cons in Hx as [->|Hx]); [..|by apply elem_of_nil in Hx];
      split; vm_compute; discriminate.
Defined.

Lemma Qc_of_Z_le (a b : Z) : a ≤ b → (Qc_of_Z a ≤ Qc_of_Z b)%Qc.
Proof. intros H. unfold Qcle. simpl. by rewrite <-Zle_Qle. Qed.

(** A value that no cell of a metric's column goes below is graded into
    the first bucket against the quantile frame. *)
Lemma lowest_first_bucket (rfv : list RFV) (m : string) (vals : list Qc)
    (x : Qc) :
  vals ≠ [] →
  DataFrame_quantile rfv [q025; q050; q075] !! m
    = Some (Series_quantile vals [q025; q050; q075]) →
  (∀ y, y ∈ vals → (x ≤ y)%Qc) →
  recencia_class x m (DataFrame_quantile rfv [q025; q050; q075]) = Ok "A"%string ∧
  freq_val_class x m (DataFrame_quantile rfv [q025; q050; q075]) = Ok "D"%string.
Proof.
  intros Hne Hm Hx.
  destruct (Series_quantile_quartiles vals Hne) as (a & b & c & Ha & Hb & Hc & _).
  pose proof (boundaries_of_column _ m vals a b c Hm Ha Hb Hc) as Hq.
  destruct levels_in_range as (H0 & H12 & H23 & H1).
  destruct (quantile_linear_between vals q025 Hne H0) as (v & Hv & Hlo & _).
  { by repeat (etrans; [eassumption|]). }
  rewrite Ha in Hv. injection Hv as <-.
  do 2 cascade Hq. rewrite bool_decide_true by (by apply Hlo). done.
Qed.

(** The rows of the final table with the lowest value of a metric. *)
Lemma main_lowest (df_compras : list Compra) (out : Output) (r : RFV_row) :
  main df_compras = Ok out →
  r ∈ out_df_RFV out →
  ((∀ r', r' ∈ out_df_RFV out → Recencia (metrics r) ≤ Recencia (metrics r')) →
     R_quartil r = "A"%string) ∧
  ((∀ r', r' ∈ out_df_RFV out → Frequencia (metrics r) ≤ Frequencia (metrics r')) →
     F_quartil r = "D"%string) ∧
  ((∀ r', r' ∈ out_df_RFV out → (Valor (metrics r) ≤ Valor (metrics r'))%Qc) →
     V_quartil r = "D"%string).
Proof.
  intros Hmain Hr.
  destruct (main_rows _ _ _ Hmain Hr) as (Hm & _ & HR & HF & HV & _).
  rewrite (main_table _ (main_Ok_nonempty _ _ Hmain)) in Hmain.
  injection Hmain as <-. simpl in *.
  set (rfv := df_RFV df_compras) in *.
  set (quartis := DataFrame_quantile rfv [q025; q050; q075]) in *.
  assert (rfv ≠ []) as Hne.
  { intros Hnil. rewrite Hnil in Hm. by apply elem_of_nil in Hm. }
  destruct (DataFrame_quantile_column rfv [q025; q050; q075]) as (CR & CF & CV).
  assert (∀ m', m' ∈ rfv → graded_row quartis m' ∈ graded_row quartis <$> rfv)
    as Hrow by (intros; by apply list_elem_of_fmap_2).
  split; [|split]; intros Hlow.
  - destruct (lowest_first_bucket rfv "Recencia" (Qc_of_Z ∘ Recencia <$> rfv)
                (Qc_of_Z (Recencia (metrics r)))) as [HA _];
      [by intros ?%fmap_nil_inv|exact CR| |unfold quartis in *; congruence].
    intros y (m' & -> & Hm')%list_elem_of_fmap. simpl.
    apply Qc_of_Z_le, (Hlow (graded_row quartis m')), Hrow, Hm'.
  - destruct (lowest_first_bucket rfv "Frequencia" (Qc_of_Z ∘ Frequencia <$> rfv)
                (Qc_of_Z (Frequencia (metrics r)))) as [_ HD];
      [by intros ?%fmap_nil_inv|exact CF| |unfold quartis in *; congruence].
    intros y (m' & -> & Hm')%list_elem_of_fmap. simpl.
    apply Qc_of_Z_le, (Hlow (graded_row quartis m')), Hrow, Hm'.
  - destruct (lowest_first_bucket rfv "Valor" (Valor <$> rfv)
                (Valor (metrics r))) as [_ HD];
      [by intros ?%fmap_nil_inv|exact CV| |unfold quartis in *; congruence].
    intros y (m' & -> & Hm')%list_elem_of_fmap.
    apply (Hlow (graded_row quartis m')), Hrow, Hm'.
Qed.

(** X11. The lowest value of a metric always lands in the first bucket:
    in the final table a customer whose Recencia no other customer goes
    below gets R 'A', one whose Frequencia no other goes below gets
    F 'D', and one whose Valor no other goes below gets V 'D'. *)
Theorem lowest_customer_grades (df_compras : list Compra) (out : Output)
    (r : RFV_row) :
  main df_compras = Ok out →
  r ∈ out_df_RFV out →
  ((∀ r', r' ∈ out_df_RFV out → Recencia (metrics r) ≤ Recencia (metrics r')) →
     R_quartil r = "A"%string) ∧
  ((∀ r', r' ∈ out_df_RFV out → Frequencia (metrics r) ≤ Frequencia (metrics r')) →
     F_quartil r = "D"%string) ∧
  ((∀ r', r' ∈ out_df_RFV out → (Valor (metrics r) ≤ Valor (metrics r'))%Qc) →
     V_quartil r = "D"%string).
Proof. apply main_lowest. Qed.

Lemma lowest_customer_grades_witness :
  main ex_log = Ok ex_out ∧ ex_row ∈ out_df_RFV ex_out ∧
  (∀ r', r' ∈ out_df_RFV ex_out →
     Recencia (metrics ex_row) ≤ Recencia (metrics r')) ∧
  R_quartil ex_row = "A"%string.
Proof.
  assert (Hmain : main ex_log = Ok ex_out) by (vm_compute; reflexivity).
  assert (Hr : ex_row ∈ out_df_RFV ex_out)
    by (vm_compute; apply list_elem_of_here).
  assert (Hlow : ∀ r', r' ∈ out_df_RFV ex_out →
                   Recencia (metrics ex_row) ≤ Recencia (metrics r')).
  { clear Hmain Hr. intros r' Hr'. vm_compute in Hr'.
    repeat match goal with
           | H : _ ∈ _ |- _ => inv H
           | H : list_elem_of _ _ |- _ => inv H
           end; vm_compute; intros ?; discriminate. }
  split; [exact Hmain|]. split; [exact Hr|]. split; [exact Hlow|].
  exact (proj1 (lowest_customer_grades ex_log ex_out ex_row Hmain Hr) Hlow).
Defined.

Lemma Recencia_row_of (df : list Compra) (d : Timestamp) (k : Z) :
  dia_atual df = Some d → k ∈ keys df →
  0 ≤ Recencia (row_of d df k) ∧
  (last_purchase k df = d → Recencia (row_of d df k) = 0).
Proof.
  intros Hd Hk. simpl.
  destruct (last_purchase_latest df k Hk) as [_ [Hin _]].
  destruct (Series_max_Some_latest _ _ Hd) as [_ Hub].
  assert (last_purchase k df ≤ d) as Hle.
  { apply Hub. apply list_elem_of_fmap in Hin as (t & -> & Ht).
    apply list_elem_of_fmap. exists t. split; [done|].
    unfold group in Ht. by apply list_elem_of_filter in Ht as [_ ?]. }
  unfold Timedelta_days. split.
  - apply Z.div_pos; [lia|done].
  - intros ->. by rewrite Z.sub_diag.
Qed.

(** Some customer bought on the latest day of the log. *)
Lemma latest_buyer (df : list Compra) (d : Timestamp) :
  dia_atual df = Some d → ∃ k, k ∈ keys df ∧ last_purchase k df = d.
Proof.
  intros Hd. destruct (Series_max_Some_latest _ _ Hd) as [Hin Hub].
  apply list_elem_of_fmap in Hin as (t & -> & Ht).
  exists (ID_cliente t). split; [by apply keys_cover|].
  destruct (last_purchase_latest df (ID_cliente t)) as [_ [Hin' Hub']];
    [by apply keys_cover|].
  apply Z.le_antisymm.
  - apply Hub. apply list_elem_of_fmap in Hin' as (t' & -> & Ht').
    apply list_elem_of_fmap. exists t'. split; [done|].
    unfold group in Ht'. by apply list_elem_of_filter in Ht' as [_ ?].
  - apply Hub'. apply list_elem_of_fmap. exists t. split; [done|].
    unfold group. by apply list_elem_of_filter.
Qed.

(** X12. In every run over a log that has a row, some customer has
    recency 0 (one who bought on the latest day of the log), and every
    customer with recency 0 gets R 'A': no run grades all its customers
    below 'A' on recency. *)
Theorem latest_buyer_gets_A (df_compras : list Compra) :
  df_compras ≠ [] →
  ∃ out, main df_compras = Ok out ∧
    (∃ r, r ∈ out_df_RFV out ∧ Recencia (metrics r) = 0) ∧
    (∀ r, r ∈ out_df_RFV out → Recencia (metrics r) = 0 →
       R_quartil r = "A"%string).
Proof.
  intros Hne. destruct (dia_atual_latest df_compras Hne) as (d & Hd & _).
  eexists. split; [by apply main_table|]. simpl.
  rewrite (df_RFV_rows _ d Hd). split.
  - destruct (latest_buyer _ _ Hd) as (k & Hk & Hlast).
    eexists. split; [apply list_elem_of_fmap_2, list_elem_of_fmap_2, Hk|].
    simpl. by apply (Recencia_row_of df_compras d k Hd Hk).
  - intros r Hr H0.
    rewrite <-(df_RFV_rows _ d Hd) in Hr.
    eapply (main_lowest df_compras); [by apply main_table|exact Hr|].
    intros r' Hr'. rewrite H0. simpl in Hr'.
    apply list_elem_of_fmap in Hr' as (m' & -> & Hm').
    rewrite (df_RFV_rows _ d Hd) in Hm'.
    apply list_elem_of_fmap in Hm' as (k & -> & Hk).
    by apply (Recencia_row_of df_compras d k Hd Hk).
Qed.

Lemma latest_buyer_gets_A_witness :
  ex_log ≠ [] ∧
  ∃ out, main ex_log = Ok out ∧
    (∃ r, r ∈ out_df_RFV out ∧ Recencia (metrics r) = 0) ∧
    (∀ r, r ∈ out_df_RFV out → Recencia (metrics r) = 0 →
       R_quartil r = "A"%string).
Proof.
  assert (H : ex_log ≠ []) by discriminate.
  split; [exact H|]. exact (latest_buyer_gets_A ex_log H).
Defined.

Lemma NoDup_all_equal (c : Z) (l : list Z) :
  NoDup l → l ≠ [] → (∀ x, x ∈ l → x = c) → l = [c].
Proof.
  intros Hnd Hne Hall. destruct l as [|x l]; [done|].
  rewrite (Hall x) by set_solver. f_equal.
  destruct l as [|y l]; [done|]. exfalso.
  apply NoDup_cons in Hnd as [Hx _]. apply Hx.
  rewrite (Hall x), (Hall y) by set_solver. set_solver.
Qed.

(** X13. A log whose purchases are all by one customer gives a final
    table of one row: the customer has recency 0, frequency the number
    of rows of the log and value the sum of its amounts, the score is
    'ADD', and the action is NaN. *)
Theorem single_customer_run (df_compras : list Compra) (c : Z) :
  df_compras ≠ [] →
  (∀ t, t ∈ df_compras → ID_cliente t = c) →
  ∃ out r, main df_compras = Ok out ∧ out_df_RFV out = [r] ∧
    index (metrics r) = c ∧
    Recencia (metrics r) = 0 ∧
    Frequencia (metrics r) = Z.of_nat (length df_compras) ∧
    Valor (metrics r) = total_Qc (ValorTotal <$> df_compras) ∧
    RFV_Score r = "ADD"%string ∧
    acoes_de_marketing_crm r = None.
Proof.
  intros Hne Hall. destruct (dia_atual_latest df_compras Hne) as (d & Hd & _).
  assert (keys df_compras = [c]) as Hkeys.
  { apply NoDup_all_equal; [apply keys_NoDup| |].
    - destruct df_compras as [|t df]; [done|]. intros Hnil.
      pose proof (keys_cover (t :: df) t) as Hin. rewrite Hnil in Hin.
      eapply elem_of_nil, Hin. set_solver.
    - intros k (t & -> & Ht)%elem_of_keys%list_elem_of_fmap. by apply Hall. }
  assert (df_RFV df_compras = [row_of d df_compras c]) as Hrfv
    by (by rewrite (df_RFV_rows _ d Hd), Hkeys).
  pose proof (main_table df_compras Hne) as Hmain. rewrite Hrfv in Hmain.
  simpl in Hmain.
  set (q := DataFrame_quantile [row_of d df_compras c] [q025; q050; q075]) in *.
  set (r := graded_row q (row_of d df_compras c)) in *.
  assert (r ∈ [r]) as Hr by set_solver.
  destruct (main_lowest df_compras _ r Hmain Hr) as (HR & HF & HV).
  assert (∀ r' : RFV_row, r' ∈ [r] → r' = r) as Honly by set_solver.
  specialize (HR ltac:(simpl; intros r' ->%Honly; reflexivity)).
  specialize (HF ltac:(simpl; intros r' ->%Honly; reflexivity)).
  specialize (HV ltac:(simpl; intros r' ->%Honly; reflexivity)).
  assert (RFV_Score r = (R_quartil r +:+ F_quartil r +:+ V_quartil r)%string)
    as Hs by done.
  assert (acoes_de_marketing_crm r = map_acoes (RFV_Score r)) as Ha by done.
  assert (metrics r = row_of d df_compras c) as Hm by done.
  clearbody r. rewrite HR, HF, HV in Hs. rewrite Hs in Ha.
  eexists _, r. split; [exact Hmain|]. split; [reflexivity|].
  rewrite Hm, Hs, Ha. split; [done|]. split; [|split; [|split; [|done]]].
  - destruct (latest_buyer _ _ Hd) as (k & Hk & Hlast).
    rewrite Hkeys in Hk. apply list_elem_of_singleton in Hk as ->.
    apply (Recencia_row_of df_compras d c Hd); [|done].
    rewrite Hkeys. set_solver.
  - simpl. rewrite Series_count_group.
    rewrite <-(purchases_of_total df_compras [c]).
    + unfold total_Z. simpl. lia.
    + apply NoDup_singleton.
    + intros t Ht. rewrite (Hall t Ht). set_solver.
  - simpl. rewrite Series_sum_group.
    rewrite <-(spent_by_total df_compras [c]).
    + unfold total_Qc. simpl. ring.
    + apply NoDup_singleton.
    + intros t Ht. rewrite (Hall t Ht). set_solver.
Qed.

Lemma single_customer_run_witness :
  let log := [ {| ID_cliente := 7; CodigoCompra := 1; DiaCompra := 0;
                  ValorTotal := Q2Qc 50 |};
               {| ID_cliente := 7; CodigoCompra := 3; DiaCompra := 9 * ns_per_day;
                  ValorTotal := Q2Qc 30 |} ] in
  log ≠ [] ∧ (∀ t, t ∈ log → ID_cliente t = 7) ∧
  ∃ out r, main log = Ok out ∧ out_df_RFV out = [r] ∧
    index (metrics r) = 7 ∧
    Recencia (metrics r) = 0 ∧
    Frequencia (metrics r) = Z.of_nat (length log) ∧
    Valor (metrics r) = total_Qc (ValorTotal <$> log) ∧
    RFV_Score r = "ADD"%string ∧
    acoes_de_marketing_crm r = None.
Proof.
  intros log.
  assert (H : log ≠ []) by discriminate.
  assert (Hall : ∀ t, t ∈ log → ID_cliente t = 7).
  { intros t Ht. unfold log in Ht.
    repeat (apply elem_of_cons in Ht as [->|Ht]); [..|by apply elem_of_nil in Ht];
      reflexivity. }
  split; [exact H|]. split; [exact Hall|].
  exact (single_customer_run log 7 H Hall).
Defined.

(** ** The displayed tables *)

Lemma sum_list_Permutation (l l' : list nat) :
  l ≡ₚ l' → sum_list l = sum_list l'.
Proof.
  induction 1 as [|x l l' _ IH|x y l|l l' l'' _ IH _ IH']; simpl; lia.
Qed.

Lemma sum_list_add {A} (f g : A → nat) (l : list A) :
  sum_list ((λ v, f v + g v)%nat <$> l)
  = (sum_list (f <$> l) + sum_list (g <$> l))%nat.
Proof.
  induction l as [|v l IH]; [done|]. rewrite !fmap_cons. simpl. lia.
Qed.

Lemma sum_list_one {A} `{EqDecision A} (x : A) (l : list A) :
  NoDup l →
  sum_list ((λ v, if decide (x = v) then 1 else 0)%nat <$> l)
  = if decide (x ∈ l) then 1%nat else 0%nat.
Proof.
  induction 1 as [|v l Hv Hnd IH]; [done|].
  rewrite fmap_cons. simpl. rewrite IH.
  destruct (decide (x = v)) as [->|Hne].
  - rewrite decide_False by done. by rewrite decide_True by set_solver.
  - destruct (decide (x ∈ l)).
    + by rewrite decide_True by set_solver.
    + by rewrite decide_False by set_solver.
Qed.

(** Over a list of distinct cells that covers the column, the numbers of
    occurrences add up to the length of the column. *)
Lemma occurrences_total {A} `{EqDecision A} (s ks : list A) :
  NoDup ks → (∀ x, x ∈ s → x ∈ ks) →
  sum_list ((λ v, length (filter (λ x, x = v) s)) <$> ks) = length s.
Proof.
  intros Hnd. induction s as [|x s IH]; intros Hcov.
  - clear. induction ks as [|k ks IHk]; [done|].
    rewrite fmap_cons. simpl in *. exact IHk.
  - rewrite (list_fmap_ext _
               (λ v, (if decide (x = v) then 1 else 0)
                     + length (filter (λ y, y = v) s))%nat ks).
    2:{ intros _ v _. rewrite filter_cons. by destruct (decide (x = v)). }
    rewrite (sum_list_add (λ v, if decide (x = v) then 1 else 0)%nat
               (λ v, length (filter (λ y, y = v) s))).
    rewrite (sum_list_one x ks Hnd).
    rewrite decide_True by (apply Hcov; set_solver).
    rewrite IH by (intros; apply Hcov; set_solver). done.
Qed.

Global Instance count_ge_total {A} : Total (@count_ge A).
Proof. intros a b. unfold count_ge. lia. Qed.

(** What [value_counts] holds, whatever the type of the cells. *)
Lemma value_counts_spec {A} `{EqDecision A} (s : list A) :
  NoDup (value_counts s).*1 ∧
  (∀ v n, (v, n) ∈ value_counts s ↔
          v ∈ s ∧ n = length (filter (λ x, x = v) s)) ∧
  sum_list (value_counts s).*2 = length s ∧
  Sorted count_ge (value_counts s).
Proof.
  unfold value_counts.
  set (l := (λ v, (v, length (filter (λ x, x = v) s))) <$> remove_dups s).
  pose proof (merge_sort_Permutation count_ge l) as Hp.
  assert (l.*1 = remove_dups s) as H1.
  { unfold l. rewrite <-list_fmap_compose. apply list_fmap_id. }
  assert (l.*2 = (λ v, length (filter (λ x, x = v) s)) <$> remove_dups s) as H2.
  { unfold l. by rewrite <-list_fmap_compose. }
  split; [|split; [|split]].
  - rewrite Hp, H1. apply NoDup_remove_dups.
  - intros v n. rewrite Hp. unfold l. rewrite list_elem_of_fmap. split.
    + intros (v' & Heq & Hv'). injection Heq as -> ->.
      rewrite elem_of_remove_dups in Hv'. by split.
    + intros [Hv ->]. exists v. by rewrite elem_of_remove_dups.
  - rewrite (sum_list_Permutation _ (l.*2)) by (by rewrite Hp).
    rewrite H2. apply occurrences_total; [apply NoDup_remove_dups|].
    intros x. by rewrite elem_of_remove_dups.
  - apply (Sorted_merge_sort _).
Qed.

Lemma filter_fmap_length {A B} `{EqDecision B} (f : A → B) (v : B) (t : list A) :
  length (filter (λ x, x = v) (f <$> t)) = length (filter (λ r, f r = v) t).
Proof.
  induction t as [|r t IH]; [done|].
  rewrite fmap_cons, !filter_cons.
  destruct (decide (f r = v)); simpl; by rewrite IH.
Qed.

Lemma filter_length_pos {A} (P : A → Prop) `{∀ x, Decision (P x)} (t : list A) :
  (0 < length (filter P t))%nat ↔ ∃ r, r ∈ t ∧ P r.
Proof.
  split.
  - destruct (filter P t) as [|r l] eqn:Hf; [simpl; lia|]. intros _.
    assert (r ∈ filter P t) as Hr by (rewrite Hf; set_solver).
    apply list_elem_of_filter in Hr as [? ?]. by exists r.
  - intros (r & Hr & HP).
    assert (r ∈ filter P t) as Hf by (by apply list_elem_of_filter).
    destruct (filter P t); [by apply elem_of_nil in Hf|simpl; lia].
Qed.

(** The counts of a column of the final table, read on the rows. *)
Lemma column_counts_spec {B} `{EqDecision B} (f : RFV_row → B) (t : list RFV_row) :
  NoDup (value_counts (f <$> t)).*1 ∧
  (∀ v n, (v, n) ∈ value_counts (f <$> t) ↔
     (0 < n)%nat ∧ n = length (filter (λ r, f r = v) t)) ∧
  sum_list (value_counts (f <$> t)).*2 = length t ∧
  Sorted count_ge (value_counts (f <$> t)).
Proof.
  destruct (value_counts_spec (f <$> t)) as (Hnd & Hin & Hsum & Hs).
  rewrite length_fmap in Hsum. split; [done|]. split; [|done].
  intros v n. rewrite Hin, filter_fmap_length. split.
  - intros [(r & -> & Hr)%list_elem_of_fmap ->]. split; [|done].
    apply filter_length_pos. by exists r.
  - intros [Hpos ->]. split; [|done].
    apply filter_length_pos in Hpos as (r & Hr & <-).
    by apply list_elem_of_fmap_2.
Qed.

(** X14. The table of customers per score lists every score of the final
    table once, with the number of rows that have it, the larger groups
    first; the counts add up to the number of customers. *)
Theorem score_counts_spec (t : list RFV_row) :
  NoDup (score_counts t).*1 ∧
  (∀ score n, (score, n) ∈ score_counts t ↔
     (0 < n)%nat ∧ n = length (filter (λ r, RFV_Score r = score) t)) ∧
  sum_list (score_counts t).*2 = length t ∧
  Sorted count_ge (score_counts t).
Proof. apply (column_counts_spec RFV_Score). Qed.

(** X15. The table of customers per action counts the rows without an
    action as a group of their own (dropna=False): it lists every action
    text of the final table, and NaN when some row has none, once each
    with the number of its rows, so that the counts add up to the number
    of customers. *)
Theorem action_counts_spec (t : list RFV_row) :
  NoDup (action_counts t).*1 ∧
  (∀ action n, (action, n) ∈ action_counts t ↔
     (0 < n)%nat ∧
     n = length (filter (λ r, acoes_de_marketing_crm r = action) t)) ∧
  (∀ n, (None, n) ∈ action_counts t ↔
     (0 < n)%nat ∧
     n = length (filter (λ r, acoes_de_marketing_crm r = None) t)) ∧
  sum_list (action_counts t).*2 = length t ∧
  Sorted count_ge (action_counts t).
Proof.
  destruct (column_counts_spec acoes_de_marketing_crm t) as (H1 & H2 & H3 & H4).
  unfold action_counts. split; [done|]. split; [exact H2|].
  split; [|by split]. intros n. rewrite H2.
  assert (∀ l1 l2 : list RFV_row, l1 = l2 →
            ((0 < n)%nat ∧ n = length l1) ↔ ((0 < n)%nat ∧ n = length l2))
    as Hc by (by intros ? ? ->).
  apply Hc. by apply list_filter_iff.
Qed.

Global Instance Valor_ge_total : Total Valor_ge.
Proof. intros a b. unfold Valor_ge. destruct (total Qcle (Valor (metrics a)) (Valor (metrics b))); auto. Qed.

Global Instance Valor_ge_trans : Transitive Valor_ge.
Proof. intros a b c Hab Hbc. unfold Valor_ge in *. by etrans. Qed.

(** X16. The list of top customers holds at most ten rows, all of them
    rows of the final table with score 'AAA', in falling order of Valor;
    every 'AAA' row that is left out has a Valor no larger than that of
    every listed row, and when the table has at most ten 'AAA' rows all
    of them are listed. *)
Theorem top10_AAA_spec (t : list RFV_row) :
  (length (top10_AAA t) ≤ 10)%nat ∧
  (∀ r, r ∈ top10_AAA t → r ∈ t ∧ RFV_Score r = "AAA"%string) ∧
  StronglySorted Valor_ge (top10_AAA t) ∧
  (∀ r, r ∈ t → RFV_Score r = "AAA"%string →
     r ∈ top10_AAA t ∨
     ∀ r', r' ∈ top10_AAA t → (Valor (metrics r) ≤ Valor (metrics r'))%Qc) ∧
  ((length (filter (λ r, RFV_Score r = "AAA"%string) t) ≤ 10)%nat →
     top10_AAA t ≡ₚ filter (λ r, RFV_Score r = "AAA"%string) t).
Proof.
  unfold top10_AAA.
  set (aaa := filter (λ r, RFV_Score r = "AAA"%string) t).
  pose proof (merge_sort_Permutation Valor_ge aaa) as Hp.
  pose proof (StronglySorted_merge_sort Valor_ge aaa) as Hs.
  revert Hp Hs. generalize (merge_sort Valor_ge aaa). intros s Hp Hs.
  rewrite <-(take_drop 10 s) in Hs.
  apply StronglySorted_app in Hs as (Hcross & Htake & _).
  assert (∀ r, r ∈ s ↔ r ∈ t ∧ RFV_Score r = "AAA"%string) as Hin.
  { intros r. rewrite Hp. unfold aaa. rewrite list_elem_of_filter. tauto. }
  split; [rewrite length_take; lia|]. split; [|split; [done|split]].
  - intros r Hr. apply Hin. rewrite <-(take_drop 10 s). set_solver.
  - intros r Hr Hscore.
    assert (r ∈ take 10 s ++ drop 10 s) as Hrs
      by (rewrite take_drop; by apply Hin).
    apply elem_of_app in Hrs as [?|Hd]; [by left|right].
    intros r' Hr'. by apply (Hcross r' r).
  - intros Hlen. rewrite take_ge; [done|].
    by rewrite (Permutation_length Hp).
Qed.

Lemma top10_AAA_spec_witness :
  let r := mk_row {| index := 3; Recencia := 0; Frequencia := 6;
                     Valor := Q2Qc 30 |} ("A", ("A", "A"))%string in
  r ∈ top10_AAA ex_table ∧ r ∈ ex_table ∧ RFV_Score r = "AAA"%string.
Proof.
  intros r.
  assert (Hr : r ∈ top10_AAA ex_table) by (vm_compute; apply list_elem_of_here).
  split; [exact Hr|].
  destruct (top10_AAA_spec ex_table) as (_ & Hin & _).
  exact (Hin r Hr).
Defined.

(** X17. Every row of the top-customers list of a run belongs to a
    customer of the log and has the grade 'A' for R, F and V; its score
    is the key of [dict_acoes] whose entry is the retention text, the
    one line 163 then gives that customer. *)
Theorem top10_AAA_grades (df_compras : list Compra) (out : Output) (r : RFV_row) :
  main df_compras = Ok out →
  r ∈ top10_AAA (out_df_RFV out) →
  index (metrics r) ∈ ID_cliente <$> df_compras ∧
  R_quartil r = "A"%string ∧ F_quartil r = "A"%string ∧ V_quartil r = "A"%string ∧
  dict_acoes !! RFV_Score r =
    Some "Enviar cupons de desconto, pedir indicação, enviar amostras grátis de novos produtos."%string.
Proof.
  intros Hmain Hr.
  assert (r ∈ out_df_RFV out ∧ RFV_Score r = "AAA"%string) as [Hin Hs].
  { unfold top10_AAA in Hr.
    assert (r ∈ merge_sort Valor_ge
                  (filter (λ r, RFV_Score r = "AAA"%string) (out_df_RFV out)))
      as Hm by (rewrite <-(take_drop 10 (merge_sort _ _)); set_solver).
    rewrite merge_sort_Permutation in Hm.
    apply list_elem_of_filter in Hm. tauto. }
  destruct (main_rows _ _ _ Hmain Hin) as (Hm & Hg & _ & _ & _ & HR & HF & HV).
  assert (RFV_Score r = (R_quartil r +:+ F_quartil r +:+ V_quartil r)%string)
    as Hc by (by rewrite Hg).
  split.
  { apply elem_of_keys. rewrite <-df_RFV_index. by apply list_elem_of_fmap_2. }
  rewrite Hs. rewrite Hs in Hc. clear -Hc HR HF HV.
  unfold grades in *.
  repeat (apply elem_of_cons in HR as [HR|HR]); [..|by apply elem_of_nil in HR];
  (repeat (apply elem_of_cons in HF as [HF|HF]); [..|by apply elem_of_nil in HF]);
  (repeat (apply elem_of_cons in HV as [HV|HV]); [..|by apply elem_of_nil in HV]);
  rewrite HR, HF, HV in Hc; try discriminate Hc; done.
Qed.

Lemma top10_AAA_grades_witness :
  main ex_log5 = Ok ex_out5 ∧ ex_row5 ∈ top10_AAA (out_df_RFV ex_out5) ∧
  index (metrics ex_row5) ∈ ID_cliente <$> ex_log5 ∧
  R_quartil ex_row5 = "A"%string ∧ F_quartil ex_row5 = "A"%string ∧
  V_quartil ex_row5 = "A"%string ∧
  dict_acoes !! RFV_Score ex_row5 =
    Some "Enviar cupons de desconto, pedir indicação, enviar amostras grátis de novos produtos."%string.
Proof.
  assert (Hmain : main ex_log5 = Ok ex_out5) by (vm_compute; reflexivity).
  assert (Hr : ex_row5 ∈ top10_AAA (out_df_RFV ex_out5))
    by (vm_compute; apply list_elem_of_here).
  split; [exact Hmain|]. split; [exact Hr|].
  exact (top10_AAA_grades ex_log5 ex_out5 ex_row5 Hmain Hr).
Defined.

(** The grades of a row of the final table as cascades over the
    boundaries of the run. *)
Lemma main_row_cascades (df_compras : list Compra) (out : Output) (r : RFV_row) :
  main df_compras = Ok out → r ∈ out_df_RFV out →
  ∃ r25 r50 r75 f25 f50 f75 v25 v50 v75,
    (∀ r', r' ∈ out_df_RFV out →
       R_quartil r' =
         (let x := Qc_of_Z (Recencia (metrics r')) in
          if bool_decide (x ≤ r25)%Qc then "A"
          else if bool_decide (x ≤ r50)%Qc then "B"
          else if bool_decide (x ≤ r75)%Qc then "C" else "D")%string ∧
       F_quartil r' =
         (let x := Qc_of_Z (Frequencia (metrics r')) in
          if bool_decide (x ≤ f25)%Qc then "D"
          else if bool_decide (x ≤ f50)%Qc then "C"
          else if bool_decide (x ≤ f75)%Qc then "B" else "A")%string ∧
       V_quartil r' =
         (let x := Valor (metrics r') in
          if bool_decide (x ≤ v25)%Qc then "D"
          else if bool_decide (x ≤ v50)%Qc then "C"
          else if bool_decide (x ≤ v75)%Qc then "B" else "A")%string).
Proof.
  intros Hmain Hr.
  destruct (main_rows _ _ _ Hmain Hr) as (Hm & _).
  assert (df_RFV df_compras ≠ []) as Hne.
  { intros Hnil. rewrite Hnil in Hm. by apply elem_of_nil in Hm. }
  assert (out_quartis out = DataFrame_quantile (df_RFV df_compras) [q025; q050; q075])
    as Hq.
  { rewrite (main_table _ (main_Ok_nonempty _ _ Hmain)) in Hmain.
    by injection Hmain as <-. }
  destruct elem_of_metric_names as (HR & HF & HV).
  destruct (DataFrame_quantile_boundaries _ _ Hne HR) as (r25 & r50 & r75 & BR & _).
  destruct (DataFrame_quantile_boundaries _ _ Hne HF) as (f25 & f50 & f75 & BF & _).
  destruct (DataFrame_quantile_boundaries _ _ Hne HV) as (v25 & v50 & v75 & BV & _).
  exists r25, r50, r75, f25, f50, f75, v25, v50, v75.
  intros r' Hr'.
  destruct (main_rows _ _ _ Hmain Hr') as (_ & _ & ER & EF & EV & _).
  rewrite Hq in ER, EF, EV.
  rewrite (recencia_class_cascade _ _ _ _ _ BR) in ER.
  rewrite (freq_val_class_cascade _ _ _ _ _ BF) in EF.
  rewrite (freq_val_class_cascade _ _ _ _ _ BV) in EV.
  injection ER as <-. injection EF as <-. injection EV as <-. done.
Qed.

(** X18. Within one run the grades follow the metrics: of two customers
    of the final table, the one with the smaller Recencia never has the
    worse R grade, and the one with the larger Frequencia (Valor) never
    has the worse F (V) grade, in the order D < C < B < A. *)
Theorem run_grades_monotone (df_compras : list Compra) (out : Output)
    (r1 r2 : RFV_row) :
  main df_compras = Ok out →
  r1 ∈ out_df_RFV out → r2 ∈ out_df_RFV out →
  (Recencia (metrics r1) ≤ Recencia (metrics r2) →
     (grade_rank (R_quartil r2) ≤ grade_rank (R_quartil r1))%nat) ∧
  (Frequencia (metrics r1) ≤ Frequencia (metrics r2) →
     (grade_rank (F_quartil r1) ≤ grade_rank (F_quartil r2))%nat) ∧
  ((Valor (metrics r1) ≤ Valor (metrics r2))%Qc →
     (grade_rank (V_quartil r1) ≤ grade_rank (V_quartil r2))%nat).
Proof.
  intros Hmain H1 H2.
  destruct (main_row_cascades _ _ _ Hmain H1)
    as (r25 & r50 & r75 & f25 & f50 & f75 & v25 & v50 & v75 & Hc).
  destruct (Hc r1 H1) as (-> & -> & ->). destruct (Hc r2 H2) as (-> & -> & ->).
  cbv zeta. split; [|split].
  - intros Hle%Qc_of_Z_le.
    repeat case_bool_decide; try (vm_compute; lia); qc_order.
  - intros Hle%Qc_of_Z_le.
    repeat case_bool_decide; try (vm_compute; lia); qc_order.
  - intros Hle.
    repeat case_bool_decide; try (vm_compute; lia); qc_order.
Qed.

Lemma run_grades_monotone_witness :
  main ex_log = Ok ex_out ∧ ex_row ∈ out_df_RFV ex_out ∧
  ex_row7 ∈ out_df_RFV ex_out ∧
  (Recencia (metrics ex_row) ≤ Recencia (metrics ex_row7)) ∧
  (grade_rank (R_quartil ex_row7) ≤ grade_rank (R_quartil ex_row))%nat.
Proof.
  assert (Hmain : main ex_log = Ok ex_out) by (vm_compute; reflexivity).
  assert (Hr : ex_row ∈ out_df_RFV ex_out)
    by (vm_compute; apply list_elem_of_here).
  assert (Hr7 : ex_row7 ∈ out_df_RFV ex_out)
    by (vm_compute; apply list_elem_of_further, list_elem_of_here).
  assert (Hle : Recencia (metrics ex_row) ≤ Recencia (metrics ex_row7))
    by (vm_compute; discriminate).
  split; [exact Hmain|]. split; [exact Hr|]. split; [exact Hr7|].
  split; [exact Hle|].
  exact (proj1 (run_grades_monotone ex_log ex_out ex_row ex_row7 Hmain Hr Hr7) Hle).
Defined.
